(** * BayesianModel.py: a shallow embedding in Rocq

    The script fits a Gaussian-process regression (PyMC3) to performance
    tables, and evaluates it by 10-fold cross-validation.  This file embeds
    the parts of [BayesianModel.py] that are plain Python over numpy, pandas
    and scikit-learn, keeps the numerical optimiser and the sampler of PyMC3
    as parameters, and proves properties of the embedded functions.

    Conventions of the embedding:
    - a Python call that can raise returns a [result]; a call that mutates
      an object threads the object's state explicitly;
    - a numpy float is a [float64]: a real number or one of the IEEE 754
      special values.  Rounding, overflow and the sign of zero are
      idealised away: finite arithmetic is exact arithmetic over [R];
    - the cells of a table read from a CSV file are decimal literals, kept
      as rationals [Q] so that the table operations compute. *)

From Stdlib Require Import Reals Lra Lia QArith Qminmax ZArith Permutation.
From stdpp Require Import base option list strings.

(** * Python exceptions and results *)

Inductive exn : Type :=
  | AttributeError (msg : string)
  | KeyError (key : string)
  | IndexError
  | ValueError
  | TypeError
  | FileNotFoundError (path : string)
  | NotFittedError
  | DanglingReference.  (* not raised by Python: a reference outside the store *)

Inductive result (A : Type) : Type :=
  | Ok (a : A)
  | Raise (e : exn).
Arguments Ok {A} a.
Arguments Raise {A} e.

#[global] Instance result_ret : MRet result := fun A a => Ok a.
#[global] Instance result_bind : MBind result := fun A B f m =>
  match m with Ok a => f a | Raise e => Raise e end.
#[global] Instance result_fmap : FMap result := fun A B f m =>
  match m with Ok a => Ok (f a) | Raise e => Raise e end.

Definition is_ok {A} (m : result A) : bool :=
  match m with Ok _ => true | Raise _ => false end.

(** Code that changes a state [St] and can raise: the state reached is
    kept when an exception is raised. *)
Definition M (St A : Type) : Type := St -> result A * St.

#[global] Instance M_ret {St} : MRet (M St) := fun A a st => (Ok a, st).
#[global] Instance M_bind {St} : MBind (M St) := fun A B f m st =>
  match m st with
  | (Ok a, st') => f a st'
  | (Raise e, st') => (Raise e, st')
  end.

Definition raise {St A} (e : exn) : M St A := fun st => (Raise e, st).
Definition lift {St A} (r : result A) : M St A := fun st => (r, st).

(** A computation on one component of a pair of states. *)
Definition on_fst {St1 St2 A} (m : M St1 A) : M (St1 * St2) A :=
  fun st => let (r, st1) := m st.1 in (r, (st1, st.2)).
Definition on_snd {St1 St2 A} (m : M St2 A) : M (St1 * St2) A :=
  fun st => let (r, st2) := m st.2 in (r, (st.1, st2)).

(** A computation with a local object, created here and dropped at the
    end. *)
Definition with_local {L St A} (init : L) (m : M (L * St) A) : M St A :=
  fun st => let (r, st') := m (init, st) in (r, st'.2).

(** [for x in l: body(x)]. *)
Fixpoint for_each {St A} (l : list A) (body : A -> M St unit) : M St unit :=
  match l with
  | [] => mret ()
  | x :: l' => _ ← body x; for_each l' body
  end.

(** * numpy: floats and one-dimensional arrays *)

Module np.

Inductive float64 : Type :=
  | Fin (r : R)
  | PosInf
  | NegInf
  | NaN.

Definition isfinite (x : float64) : bool :=
  match x with Fin _ => true | _ => false end.

Definition neg (x : float64) : float64 :=
  match x with
  | Fin r => Fin (- r)
  | PosInf => NegInf
  | NegInf => PosInf
  | NaN => NaN
  end.

Definition add (x y : float64) : float64 :=
  match x, y with
  | NaN, _ | _, NaN => NaN
  | Fin a, Fin b => Fin (a + b)
  | PosInf, NegInf | NegInf, PosInf => NaN
  | PosInf, _ | _, PosInf => PosInf
  | NegInf, _ | _, NegInf => NegInf
  end.

Definition sub (x y : float64) : float64 := add x (neg y).

(** The sign of an infinity [x] multiplied or divided by the finite
    number [r]; a zero divisor counts as positive zero. *)
Definition flip_if_neg (x : float64) (r : R) : float64 :=
  if Rlt_dec r 0 then neg x else x.

Definition mul (x y : float64) : float64 :=
  match x, y with
  | NaN, _ | _, NaN => NaN
  | Fin a, Fin b => Fin (a * b)
  | Fin a, inf => if Req_dec_T a 0 then NaN else flip_if_neg inf a
  | inf, Fin b => if Req_dec_T b 0 then NaN else flip_if_neg inf b
  | PosInf, PosInf | NegInf, NegInf => PosInf
  | PosInf, NegInf | NegInf, PosInf => NegInf
  end.

(** Division as numpy does it on float64 arrays: dividing by zero is not
    an exception (only a warning), it gives an infinity or [NaN]. *)
Definition div (x y : float64) : float64 :=
  match x, y with
  | NaN, _ | _, NaN => NaN
  | Fin a, Fin b =>
      if Req_dec_T b 0 then
        if Req_dec_T a 0 then NaN
        else if Rlt_dec a 0 then NegInf else PosInf
      else Fin (a / b)
  | Fin _, _ => Fin 0
  | inf, Fin b => flip_if_neg inf b
  | _, _ => NaN
  end.

Definition abs (x : float64) : float64 :=
  match x with
  | Fin r => Fin (Rabs r)
  | PosInf | NegInf => PosInf
  | NaN => NaN
  end.

Definition sqrt (x : float64) : float64 :=
  match x with
  | Fin r => if Rlt_dec r 0 then NaN else Fin (R_sqrt.sqrt r)
  | PosInf => PosInf
  | NegInf | NaN => NaN
  end.

Definition of_nat (n : nat) : float64 := Fin (INR n).

(** Binary element-wise operation on 1-D arrays, with numpy's
    broadcasting of a one-element array. *)
Definition elementwise (f : float64 -> float64 -> float64)
    (a b : list float64) : result (list float64) :=
  if (length a =? length b)%nat then Ok (zip_with f a b)
  else match a, b with
       | [x], _ => Ok (map (f x) b)
       | _, [y] => Ok (map (fun x => f x y) a)
       | _, _ => Raise ValueError
       end.

Definition sum (a : list float64) : float64 := foldr add (Fin 0) a.

(** [np.mean]: of an empty array it is 0/0, that is [NaN]. *)
Definition mean (a : list float64) : float64 :=
  div (sum a) (of_nat (length a)).

(** [a.std()]: the population standard deviation. *)
Definition std (a : list float64) : float64 :=
  let m := mean a in
  sqrt (mean (map (fun x => let d := abs (sub x m) in mul d d) a)).

(** Reductions of a 2-D array (a list of rows) along axis 0. *)
Definition column (j : nat) (rows : list (list float64)) : list float64 :=
  map (fun row => nth j row NaN) rows.

Definition ncols (rows : list (list float64)) : nat :=
  match rows with [] => 0%nat | row :: _ => length row end.

Definition axis0 (f : list float64 -> float64)
    (rows : list (list float64)) : list float64 :=
  map (fun j => f (column j rows)) (seq 0 (ncols rows)).

End np.

Abbreviation float64 := np.float64.

(** * The metrics *)

(** [mean_absolute_percentage_error] of the script. *)
Definition mean_absolute_percentage_error (y_true y_pred : list float64)
    : result float64 :=
  diff ← np.elementwise np.sub y_true y_pred;
  ratio ← np.elementwise np.div diff y_true;
  mret (np.mul (np.mean (map np.abs ratio)) (np.Fin 100)).

(** scikit-learn's input checks of a regression metric: the two arrays
    have the same length, at least one sample, and no [NaN] or infinity. *)
Definition check_reg_targets (y_true y_pred : list float64) : result unit :=
  if negb (length y_true =? length y_pred)%nat then Raise ValueError
  else if (length y_true =? 0)%nat then Raise ValueError
  else if negb (forallb np.isfinite y_true && forallb np.isfinite y_pred)
  then Raise ValueError
  else Ok ().

Definition mean_squared_error (y_true y_pred : list float64) : result float64 :=
  _ ← check_reg_targets y_true y_pred;
  mret (np.mean (zip_with (fun t p => let d := np.sub t p in np.mul d d)
                   y_true y_pred)).

Definition mean_absolute_error (y_true y_pred : list float64) : result float64 :=
  _ ← check_reg_targets y_true y_pred;
  mret (np.mean (zip_with (fun t p => np.abs (np.sub p t)) y_true y_pred)).

(** The expression [np.sqrt(mean_squared_error(eval_y, pred_y))] of
    [eval_bayesian_rbf]. *)
Definition root_mean_squared_error (y_true y_pred : list float64)
    : result float64 :=
  np.sqrt <$> mean_squared_error y_true y_pred.

(** * pandas: tables *)

Module pd.

(** A cell of a table: a number, a string, or the missing value (the
    [NaN] that pandas puts where a value is absent or not parsable). *)
Inductive cell : Type :=
  | Num (q : Q)
  | Str (s : string)
  | Null.

Inductive dtype : Type := numeric | object | category.

Record Series : Type := { s_dtype : dtype; values : list cell }.

(** A table, row-major: the named and typed columns, and the rows. *)
Record DataFrame : Type :=
  { columns : list (string * dtype); rows : list (list cell) }.

(** Every row has one cell per column, as in a table read from a CSV
    file. *)
Definition well_formed (d : DataFrame) : Prop :=
  Forall (fun r => length r = length (columns d)) (rows d).

Definition Qltb (a b : Q) : bool := negb (Qle_bool b a).

Fixpoint get_loc (name : string) (cols : list (string * dtype))
    : option nat :=
  match cols with
  | [] => None
  | (n, _) :: cs =>
      if String.eqb n name then Some 0%nat else S <$> get_loc name cs
  end.

Definition column_at (j : nat) (d : DataFrame) : list cell :=
  map (fun r => nth j r Null) (rows d).

(** [df[name]]. *)
Definition getitem (d : DataFrame) (name : string) : result Series :=
  match get_loc name (columns d) with
  | None => Raise (KeyError name)
  | Some j =>
      Ok {| s_dtype := (nth j (columns d) (name, object)).2;
            values := column_at j d |}
  end.

(** [df[name] = s], on a table whose content replaces [d]: an existing
    column is overwritten, a new name adds a column.  The value must
    have one cell per row. *)
Definition setitem (d : DataFrame) (name : string) (s : Series)
    : result DataFrame :=
  if negb (length (values s) =? length (rows d))%nat then Raise ValueError
  else match get_loc name (columns d) with
       | Some j =>
           Ok {| columns := <[j := (name, s_dtype s)]> (columns d);
                 rows := zip_with (fun r v => <[j := v]> r)
                           (rows d) (values s) |}
       | None =>
           Ok {| columns := columns d ++ [(name, s_dtype s)];
                 rows := zip_with (fun r v => r ++ [v])
                           (rows d) (values s) |}
       end.

(** [s < c] for a number [c]: a missing value compares false, a string
    cannot be compared with a number. *)
Definition lt_scalar (s : Series) (c : Q) : result (list bool) :=
  mapM (fun x => match x with
                 | Num q => Ok (Qltb q c)
                 | Null => Ok false
                 | Str _ => Raise TypeError
                 end) (values s).

Definition select {A} (mask : list bool) (l : list A) : list A :=
  map fst (List.filter snd (zip l mask)).

(** [df.loc[mask]]: a new table with the rows where the mask holds. *)
Definition loc (d : DataFrame) (mask : list bool) : DataFrame :=
  {| columns := columns d; rows := select mask (rows d) |}.

(** [df.iloc[:, j]]: one column by position, as a Series. *)
Definition iloc_col (d : DataFrame) (j : nat) : result Series :=
  if (j <? length (columns d))%nat
  then Ok {| s_dtype := (nth j (columns d) (String.EmptyString, object)).2;
             values := column_at j d |}
  else Raise IndexError.

(** [df.iloc[:, js]]: the columns at the positions [js], as a table. *)
Definition iloc_cols (d : DataFrame) (js : list nat) : result DataFrame :=
  if forallb (fun j => (j <? length (columns d))%nat) js
  then Ok {| columns :=
               map (fun j => nth j (columns d) (String.EmptyString, object)) js;
             rows := map (fun r => map (fun j => nth j r Null) js) (rows d) |}
  else Raise IndexError.

(** [s.values.flatten()] and [df.values.flatten()] (row by row). *)
Definition Series_flatten (s : Series) : list cell := values s.
Definition DataFrame_flatten (d : DataFrame) : list cell := concat (rows d).

(** ** Categories *)

Definition cell_eqb (x y : cell) : bool :=
  match x, y with
  | Num a, Num b => Qeq_bool a b
  | Str a, Str b => String.eqb a b
  | _, _ => false
  end.

Definition cell_leb (x y : cell) : bool :=
  match x, y with
  | Num a, Num b => Qle_bool a b
  | Str a, Str b => String.leb a b
  | _, _ => true
  end.

Definition is_num (x : cell) : bool :=
  match x with Num _ => true | _ => false end.
Definition is_str (x : cell) : bool :=
  match x with Str _ => true | _ => false end.
Definition is_null (x : cell) : bool :=
  match x with Null => true | _ => false end.

(** The distinct values that are not missing, in order of appearance. *)
Definition unique (l : list cell) : list cell :=
  foldl (fun acc x =>
           if is_null x || existsb (cell_eqb x) acc then acc
           else acc ++ [x]) [] l.

Fixpoint insert_sorted (x : cell) (l : list cell) : list cell :=
  match l with
  | [] => [x]
  | y :: l' => if cell_leb x y then x :: l else y :: insert_sorted x l'
  end.

Definition sort (l : list cell) : list cell := foldr insert_sorted [] l.

(** The categories of a column: its distinct values, sorted when they
    can be compared (all numbers or all strings), and in order of
    appearance otherwise. *)
Definition categories (l : list cell) : list cell :=
  let u := unique l in
  if forallb is_num u || forallb is_str u then sort u else u.

Fixpoint position (x : cell) (l : list cell) : option nat :=
  match l with
  | [] => None
  | y :: l' => if cell_eqb x y then Some 0%nat else S <$> position x l'
  end.

(** The code of a value: its position among the categories, -1 for a
    missing value. *)
Definition code (cats : list cell) (x : cell) : Z :=
  match position x cats with
  | Some i => Z.of_nat i
  | None => (-1)%Z
  end.

Definition codes (l : list cell) : list cell :=
  map (fun x => Num (inject_Z (code (categories l) x))) l.

(** [s.astype('category')]. *)
Definition astype_category (s : Series) : Series :=
  {| s_dtype := category; values := values s |}.

(** [s.cat.codes]: only a categorical Series has the [cat] accessor. *)
Definition cat_codes (s : Series) : result Series :=
  match s_dtype s with
  | category => Ok {| s_dtype := numeric; values := codes (values s) |}
  | _ => Raise (AttributeError
                  "Can only use .cat accessor with a 'category' dtype")
  end.

(** ** Strings to numbers *)

Definition is_lower (c : Ascii.ascii) : bool :=
  (97 <=? Ascii.nat_of_ascii c)%nat && (Ascii.nat_of_ascii c <=? 122)%nat.

(** [re.sub('[a-z]+', '', s)]: every run of lower-case letters removed. *)
Fixpoint remove_lower (s : string) : string :=
  match s with
  | String.EmptyString => String.EmptyString
  | String.String c s' =>
      if is_lower c then remove_lower s' else String.String c (remove_lower s')
  end.

(** [s.str.replace(r'[a-z]+', '')]: the [str] accessor needs a column of
    strings; a cell that is not a string becomes missing. *)
Definition str_replace_lower (s : Series) : result Series :=
  match s_dtype s with
  | numeric =>
      Raise (AttributeError "Can only use .str accessor with string values")
  | _ =>
      Ok {| s_dtype := object;
            values := map (fun x => match x with
                                    | Str t => Str (remove_lower t)
                                    | _ => Null
                                    end) (values s) |}
  end.

(** [pd.to_numeric(s, errors='coerce')], over a parser of number
    literals: what does not parse becomes missing. *)
Definition to_numeric_coerce (parse : string -> option Q) (s : Series)
    : Series :=
  {| s_dtype := numeric;
     values := map (fun x => match x with
                             | Str t => match parse t with
                                        | Some q => Num q
                                        | None => Null
                                        end
                             | _ => x
                             end) (values s) |}.

End pd.

(** * Arrays of cells, and scalers *)

(** What scikit-learn receives and returns: a 1-D or a 2-D array. *)
Inductive array : Type :=
  | Arr1 (v : list pd.cell)
  | Arr2 (rows : list (list pd.cell)).

Definition Series_array (s : pd.Series) : array := Arr1 (pd.values s).
Definition DataFrame_array (d : pd.DataFrame) : array := Arr2 (pd.rows d).

(** Indexing an array with a list of positions: [a[index]]. *)
Definition np_take {A} (index : list nat) (l : list A) : result (list A) :=
  mapM (fun i => match l !! i with Some x => Ok x | None => Raise IndexError end)
       index.

Definition array_take (index : list nat) (a : array) : result array :=
  match a with
  | Arr1 v => Arr1 <$> np_take index v
  | Arr2 rows => Arr2 <$> np_take index rows
  end.

Definition array_len (a : array) : nat :=
  match a with Arr1 v => length v | Arr2 rows => length rows end.

(** The part of a scaler object that [read_csv] relies on: the test
    [hasattr(scaler, "data_max_")], [scaler.fit], which changes the scaler,
    and [scaler.transform], which does not. *)
Class Scaler (S : Type) : Type :=
  { has_data_max_ : S -> bool;
    sk_fit : S -> array -> result S;
    sk_transform : S -> array -> result array }.


(** ** MinMaxScaler *)

Record MinMaxScaler : Type :=
  { feature_range : Q * Q;
    data_min_ : option (list Q);
    data_max_ : option (list Q) }.

(** [MinMaxScaler(feature_range=r)]: not fit yet. *)
Definition MinMaxScaler_new (r : Q * Q) : MinMaxScaler :=
  {| feature_range := r; data_min_ := None; data_max_ := None |}.

(** scikit-learn's [check_array]: a 2-D array of numbers, with at least
    one row and one column; a 1-D array is refused. *)
Definition check_array (a : array) : result (list (list Q)) :=
  match a with
  | Arr1 _ => Raise ValueError
  | Arr2 [] => Raise ValueError
  | Arr2 ([] :: _) => Raise ValueError
  | Arr2 rows =>
      mapM (mapM (fun c => match c with
                           | pd.Num q => Ok q
                           | _ => Raise ValueError
                           end)) rows
  end.

Definition column_reduce (f : Q -> Q -> Q) (rows : list (list Q)) : list Q :=
  match rows with
  | [] => []
  | r :: rest => foldl (zip_with f) r rest
  end.

Definition MinMaxScaler_fit (s : MinMaxScaler) (X : array)
    : result MinMaxScaler :=
  rows ← check_array X;
  mret {| feature_range := feature_range s;
          data_min_ := Some (column_reduce Qmin rows);
          data_max_ := Some (column_reduce Qmax rows) |}.

(** A column whose values are all equal is scaled by 1. *)
Definition handle_zeros_in_scale (range : Q) : Q :=
  if Qeq_bool range 0 then 1%Q else range.

Definition MinMaxScaler_transform (s : MinMaxScaler) (X : array)
    : result array :=
  match data_min_ s, data_max_ s with
  | Some dmin, Some dmax =>
      rows ← check_array X;
      if negb (forallb (fun r => (length r =? length dmin)%nat) rows)
      then Raise ValueError
      else
        let (lo, hi) := feature_range s in
        let scale_ := zip_with (fun mn mx =>
                        ((hi - lo) / handle_zeros_in_scale (mx - mn))%Q)
                        dmin dmax in
        let min_ := zip_with (fun mn sc => (lo - mn * sc)%Q) dmin scale_ in
        Ok (Arr2 (map (fun r =>
                         map pd.Num
                           (zip_with Qplus (zip_with Qmult r scale_) min_))
                      rows))
  | _, _ => Raise NotFittedError
  end.

#[global] Instance MinMaxScaler_Scaler : Scaler MinMaxScaler :=
  {| has_data_max_ := fun s => bool_decide (is_Some (data_max_ s));
     sk_fit := MinMaxScaler_fit;
     sk_transform := MinMaxScaler_transform |}.

(** ** FunctionTransformer *)

(** [FunctionTransformer(validate=False)]: the identity transformer of
    scikit-learn, which accepts any array and keeps no fitted state. *)
Inductive FunctionTransformer : Type := FunctionTransformer_new.

#[global] Instance FunctionTransformer_Scaler : Scaler FunctionTransformer :=
  {| has_data_max_ := fun _ => false;
     sk_fit := fun s _ => Ok s;
     sk_transform := fun _ X => Ok X |}.

(** * The store of tables *)

(** Tables are objects: a variable holds a reference into the store, and
    [df[col] = ...] changes the table that every holder of the reference
    sees. *)
Abbreviation ref := nat (only parsing).
Abbreviation heap := (list pd.DataFrame) (only parsing).

Definition alloc (d : pd.DataFrame) : M heap ref :=
  fun h => (Ok (length h), h ++ [d]).

Definition load (r : ref) : M heap pd.DataFrame :=
  fun h => match h !! r with
           | Some d => (Ok d, h)
           | None => (Raise DanglingReference, h)
           end.

Definition store (r : ref) (d : pd.DataFrame) : M heap unit :=
  fun h => (Ok (), <[r := d]> h).

(** [df[columns] = frame], column by column. *)
Fixpoint setitems (d : pd.DataFrame) (cols : list (string * pd.Series))
    : result pd.DataFrame :=
  match cols with
  | [] => Ok d
  | (c, s) :: rest => d' ← pd.setitem d c s; setitems d' rest
  end.

(** * The dataset loader *)

Definition category_to_int (df : ref) (columns : list string) : M heap ref :=
  _ ← for_each columns (fun col =>
         d ← load df;
         s ← lift (pd.getitem d col);
         d' ← lift (pd.setitem d col (pd.astype_category s));
         store df d');
  d ← load df;
  selected ← lift (mapM (pd.getitem d) columns);
  encoded ← lift (mapM pd.cat_codes selected);
  d' ← lift (setitems d (zip columns encoded));
  _ ← store df d';
  mret df.

Record world (S : Type) : Type := { frames : heap; scaler : S }.
Arguments frames {S} w.
Arguments scaler {S} w.

(** What [read_csv] returns: the features, the labels and the seed. *)
Definition dataset : Type := array * list pd.cell * Z.

Section read_csv.
Local Open Scope string_scope.

(** The files: what [pd.read_csv] finds at a path. *)
Variable fs : string -> option pd.DataFrame.
(** The number literals that [pd.to_numeric] understands. *)
Variable parse_number : string -> option Q.

Context {S : Type} `{Scaler S}.

Definition on_frames {A} (m : M heap A) : M (world S) A :=
  fun w => let (r, h) := m (frames w) in
           (r, {| frames := h; scaler := scaler w |}).

Definition pd_read_csv (path : string) : M heap ref :=
  match fs path with
  | Some d => alloc d
  | None => raise (FileNotFoundError path)
  end.

(** [df.loc[df[col] < 5]]. *)
Definition error_filter (df : ref) (col : string) : M heap ref :=
  d ← load df;
  e ← lift (pd.getitem d col);
  mask ← lift (pd.lt_scalar e 5);
  alloc (pd.loc d mask).

Definition hasattr_data_max_ : M (world S) bool :=
  fun w => (Ok (has_data_max_ (scaler w)), w).

Definition scaler_fit (X : array) : M (world S) unit :=
  fun w => match sk_fit (scaler w) X with
           | Ok s' => (Ok (), {| frames := frames w; scaler := s' |})
           | Raise e => (Raise e, w)
           end.

Definition scaler_transform (X : array) : M (world S) array :=
  fun w => (sk_transform (scaler w) X, w).

Definition read_csv (path : string) : M (world S) (option dataset) :=
  df ← on_frames (pd_read_csv path);
  if String.eqb path "Datasets/APIM_Dataset.csv" then
    let feature_idx := 23%nat in
    let label_idx := [0; 1; 2; 3]%nat in
    df ← on_frames (error_filter df "Error %");
    df ← on_frames (category_to_int df ["Name"]);
    d ← on_frames (load df);
    X ← lift (pd.iloc_col d feature_idx);
    y ← lift (pd.iloc_cols d label_idx);
    fitted ← hasattr_data_max_;
    _ ← (if negb fitted then scaler_fit (Series_array X) else mret ());
    let _seed := 42%Z in
    X ← scaler_transform (Series_array X);
    let y := pd.DataFrame_flatten y in
    mret (Some (X, y, _seed))
  else if String.eqb path "Datasets/Ballerina_Dataset.csv" then
    let label_idx := 9%nat in
    let feature_idx := [1; 3; 4; 5]%nat in
    df ← on_frames (error_filter df "Error %");
    df ← on_frames (category_to_int df ["Name"]);
    d ← on_frames (load df);
    X ← lift (pd.iloc_cols d feature_idx);
    y ← lift (pd.iloc_col d label_idx);
    fitted ← hasattr_data_max_;
    _ ← (if negb fitted then scaler_fit (DataFrame_array X) else mret ());
    let _seed := 65%Z in
    X ← scaler_transform (DataFrame_array X);
    let y := pd.Series_flatten y in
    mret (Some (X, y, _seed))
  else if String.eqb path "Datasets/Springboot_Dataset.csv" then
    let label_idx := 5%nat in
    let feature_idx := [0; 1; 2; 3; 4]%nat in
    df ← on_frames (error_filter df "error_rate");
    df ← on_frames (category_to_int df ["use case"]);
    df ← on_frames (category_to_int df ["collector"]);
    _ ← on_frames (
          d ← load df;
          heap_col ← lift (pd.getitem d "heap");
          replaced ← lift (pd.str_replace_lower heap_col);
          d' ← lift (pd.setitem d "heap"
                       (pd.to_numeric_coerce parse_number replaced));
          store df d');
    d ← on_frames (load df);
    X ← lift (pd.iloc_cols d feature_idx);
    y ← lift (pd.iloc_col d label_idx);
    fitted ← hasattr_data_max_;
    _ ← (if negb fitted then scaler_fit (DataFrame_array X) else mret ());
    let _seed := 42%Z in
    X ← scaler_transform (DataFrame_array X);
    let y := pd.Series_flatten y in
    mret (Some (X, y, _seed))
  else mret None.

End read_csv.

(** The paths that [read_csv] recognizes. *)
Definition recognized (path : string) : Prop :=
  path = "Datasets/APIM_Dataset.csv"%string \/
  path = "Datasets/Ballerina_Dataset.csv"%string \/
  path = "Datasets/Springboot_Dataset.csv"%string.

(** * PyMC3: the description of a model *)

Module pm.

Inductive distribution : Type :=
  | Gamma (alpha beta : Q)
  | HalfCauchy (beta : Q).

(** [eta ** 2 * pm.gp.cov.Matern52(input_dim, ls)], over the names of
    the two random variables. *)
Record covariance : Type :=
  { amplitude : string; input_dim : nat; lengthscale : string }.

(** [pm.gp.Marginal(cov_func=cov)]. *)
Record Marginal : Type := { cov_func : covariance }.

(** The variables that a model holds, by name: the priors, the observed
    likelihood of the process, and the conditionals added for new
    inputs. *)
Inductive variable : Type :=
  | Prior (d : distribution)
  | MarginalLikelihood (gp : Marginal) (X : array) (y : list pd.cell)
      (noise : string)
  | Conditional (gp : Marginal) (Xnew : array).

Record Model : Type := { named_vars : list (string * variable) }.

(** [pm.Model()]. *)
Definition Model_new : Model := {| named_vars := [] |}.

(** A variable is added under a name that the model does not have yet. *)
Definition add (name : string) (v : variable) (m : Model) : result Model :=
  if existsb (String.eqb name) (named_vars m).*1 then Raise ValueError
  else Ok {| named_vars := named_vars m ++ [(name, v)] |}.

(** A point of the parameter space: a value for each free variable. *)
Definition point : Type := list (string * float64).

End pm.

(** [X.shape[1]]. *)
Definition shape_1 (X : array) : result nat :=
  match X with
  | Arr1 _ => Raise IndexError
  | Arr2 [] => Ok 0%nat
  | Arr2 (r :: _) => Ok (length r)
  end.

(** * The regression model *)

(** The attributes that an instance has are the ones that are set. *)
Record BayesianRBFRegression : Type :=
  { model : option pm.Model;
    gp : option pm.Marginal;
    map_trace : option (list pm.point) }.

(** [BayesianRBFRegression()]: the class has no constructor of its own,
    an instance starts without attributes. *)
Definition BayesianRBFRegression_new : BayesianRBFRegression :=
  {| model := None; gp := None; map_trace := None |}.

(** What [predict] returns: an array, or a pair of arrays. *)
Inductive prediction : Type :=
  | Mean (y_pred : list float64)
  | MeanAndError (y_pred uncer : list float64).

Definition getattr {A} (name : string)
    (field : BayesianRBFRegression -> option A) : M BayesianRBFRegression A :=
  fun self => match field self with
              | Some a => (Ok a, self)
              | None =>
                  (Raise (AttributeError
                     ("'BayesianRBFRegression' object has no attribute '"
                        +:+ name +:+ "'")), self)
              end.

Definition hasattr {A} (field : BayesianRBFRegression -> option A)
    : M BayesianRBFRegression bool :=
  fun self => (Ok (bool_decide (is_Some (field self))), self).

Definition set_model (m : pm.Model) : M BayesianRBFRegression unit :=
  fun self => (Ok (), {| model := Some m; gp := gp self;
                         map_trace := map_trace self |}).
Definition set_gp (g : pm.Marginal) : M BayesianRBFRegression unit :=
  fun self => (Ok (), {| model := model self; gp := Some g;
                         map_trace := map_trace self |}).
Definition set_map_trace (t : list pm.point) : M BayesianRBFRegression unit :=
  fun self => (Ok (), {| model := model self; gp := gp self;
                         map_trace := Some t |}).

(** A variable created inside [with self.model:] is added to that model. *)
Definition add_variable (name : string) (v : pm.variable)
    : M BayesianRBFRegression string :=
  m ← getattr "model" model;
  m' ← lift (pm.add name v m);
  _ ← set_model m';
  mret name.

Section model.
Local Open Scope string_scope.

(** The optimiser: [pm.find_MAP()] in the context of a model. *)
Variable find_MAP : pm.Model -> result pm.point.

(** The sampler: [pm.sample_ppc(trace, vars=[v], samples=n)] in the
    context of a model returns the draws of the variable [v], one row
    per draw; it consumes the state of numpy's global random number
    generator. *)
Variable rng : Type.
Variable sample_ppc :
  pm.Model -> list pm.point -> string -> nat -> M rng (list (list float64)).

Definition fit (X : array) (y : list pd.cell) : M BayesianRBFRegression unit :=
  _ ← set_model pm.Model_new;
  ℓ ← add_variable "ℓ" (pm.Prior (pm.Gamma 2 1));
  η ← add_variable "η" (pm.Prior (pm.HalfCauchy 5));
  d ← lift (shape_1 X);
  let cov := {| pm.amplitude := η; pm.input_dim := d; pm.lengthscale := ℓ |} in
  _ ← set_gp {| pm.cov_func := cov |};
  σ ← add_variable "σ" (pm.Prior (pm.HalfCauchy (1 # 10)));
  g ← getattr "gp" gp;
  y_ ← add_variable "y" (pm.MarginalLikelihood g X y σ);
  m ← getattr "model" model;
  p ← lift (find_MAP m);
  set_map_trace [p].

Definition predict (X : array) (with_error : bool)
    : M (BayesianRBFRegression * rng) prediction :=
  trained ← on_fst (hasattr model);
  if negb trained then raise (AttributeError "train the model first")
  else
    _ ← on_fst (getattr "model" model);
    g ← on_fst (getattr "gp" gp);
    f_pred ← on_fst (add_variable "f_pred" (pm.Conditional g X));
    trace ← on_fst (getattr "map_trace" map_trace);
    m ← on_fst (getattr "model" model);
    pred_samples ← on_snd (sample_ppc m trace f_pred 2000);
    let y_pred := np.axis0 np.mean pred_samples in
    let uncer := np.axis0 np.std pred_samples in
    if with_error
    then mret (MeanAndError y_pred
                 (map (fun u => np.div u (np.Fin 1000)) uncer))
    else mret (Mean y_pred).

(** The labels as numpy sees them: a missing value is [NaN], a string
    is not a number. *)
Definition as_floats (y : list pd.cell) : result (list float64) :=
  mapM (fun c => match c with
                 | pd.Num q => Ok (np.Fin (Q2R q))
                 | pd.Null => Ok np.NaN
                 | pd.Str _ => Raise ValueError
                 end) y.

Definition eval_bayesian_rbf (X : array) (y : list pd.cell)
    (eval_X : array) (eval_y : list pd.cell)
    : M rng (list float64 * list float64 * float64 * float64) :=
  with_local BayesianRBFRegression_new (
    _ ← on_fst (fit X y);
    p ← predict eval_X true;
    match p with
    | Mean _ => raise ValueError
    | MeanAndError pred_y error =>
        eval_y ← lift (as_floats eval_y);
        rmse ← lift (root_mean_squared_error eval_y pred_y);
        mape ← lift (mean_absolute_percentage_error eval_y pred_y);
        mret (pred_y, error, rmse, mape)
    end).

End model.

(** The model that [fit] builds for the inputs [X] with [d] columns and
    the labels [y], and its Gaussian process. *)
Definition fitted_gp (d : nat) : pm.Marginal :=
  {| pm.cov_func := {| pm.amplitude := "η"; pm.input_dim := d;
                       pm.lengthscale := "ℓ" |} |}.

Definition fitted_model (X : array) (y : list pd.cell) (d : nat) : pm.Model :=
  {| pm.named_vars :=
       [("ℓ", pm.Prior (pm.Gamma 2 1));
        ("η", pm.Prior (pm.HalfCauchy 5));
        ("σ", pm.Prior (pm.HalfCauchy (1 # 10)));
        ("y", pm.MarginalLikelihood (fitted_gp d) X y "σ")]%string |}.

(** The model when [fit] has made the priors of the length scale and of
    the amplitude. *)
Definition two_priors : pm.Model :=
  {| pm.named_vars :=
       [("ℓ", pm.Prior (pm.Gamma 2 1));
        ("η", pm.Prior (pm.HalfCauchy 5))]%string |}.

(** The model of a fitted instance with the conditional that [predict]
    adds for the points [Xnew]. *)
Definition predicting_model (X : array) (y : list pd.cell) (d : nat)
    (Xnew : array) : pm.Model :=
  {| pm.named_vars :=
       pm.named_vars (fitted_model X y d)
       ++ [("f_pred"%string, pm.Conditional (fitted_gp d) Xnew)] |}.

(** * The cross-validation driver *)

(** [KFold(n_splits=k, shuffle=False).split(X)] on [n] samples: the first
    [n mod k] folds have [n / k + 1] samples, the others [n / k]; the test
    indices of the folds are consecutive ranges, and the train indices of
    a fold are all the others.  Without shuffling the [random_state] that
    the script passes has no effect. *)
Definition fold_sizes (n_splits n : nat) : list nat :=
  map (fun i => (n / n_splits + (if (i <? n mod n_splits) then 1 else 0))%nat)
      (seq 0 n_splits).

Fixpoint test_ranges (current : nat) (sizes : list nat) : list (list nat) :=
  match sizes with
  | [] => []
  | fold_size :: rest =>
      seq current fold_size :: test_ranges (current + fold_size) rest
  end.

Definition train_of (n : nat) (test_index : list nat) : list nat :=
  List.filter (fun i => negb (existsb (Nat.eqb i) test_index)) (seq 0 n).

Definition KFold_split (n_splits n : nat) : result (list (list nat * list nat)) :=
  if (n_splits <? 2)%nat then Raise ValueError
  else if (n <? n_splits)%nat then Raise ValueError
  else Ok (map (fun test_index => (train_of n test_index, test_index))
             (test_ranges 0 (fold_sizes n_splits n))).

Section driver.
Local Open Scope string_scope.

Variable fs : string -> option pd.DataFrame.
Variable parse_number : string -> option Q.
Variable find_MAP : pm.Model -> result pm.point.
Variable rng : Type.
Variable sample_ppc :
  pm.Model -> list pm.point -> string -> nat -> M rng (list (list float64)).

(** [np.random.RandomState(seed).permutation(n)]: the order in which a
    generator seeded with [seed] puts [n] indices. *)
Variable permutation : Z -> nat -> list nat.

(** [sklearn.utils.shuffle(X, y, random_state=seed)]: the two arrays
    must have the same length, and are indexed by one permutation. *)
Definition shuffle (X : array) (y : list pd.cell) (seed : Z)
    : result (array * list pd.cell) :=
  if negb (array_len X =? length y)%nat then Raise ValueError
  else
    let indices := permutation seed (array_len X) in
    X' ← array_take indices X;
    y' ← np_take indices y;
    mret (X', y').

(** The shuffle and the split of the main block: the shuffled data and
    the (train, test) indices that the loop goes through. *)
Definition cross_validation_folds (_X : array) (_y : list pd.cell) (seed : Z)
    : result (array * list pd.cell * list (list nat * list nat)) :=
  '(_X, _y) ← shuffle _X _y seed;
  folds ← KFold_split 10 (array_len _X);
  mret (_X, _y, folds).

(** The body of the loop, for one fold: the three errors. *)
Definition evaluate_fold (_X : array) (_y : list pd.cell)
    (fold : list nat * list nat) : M rng (float64 * float64 * float64) :=
  let (train_index, test_index) := fold in
  X_train ← lift (array_take train_index _X);
  y_train ← lift (np_take train_index _y);
  X_test ← lift (array_take test_index _X);
  y_test ← lift (np_take test_index _y);
  '(pred_bayes, error, rmse_bayes, mape_bayes) ←
    eval_bayesian_rbf find_MAP rng sample_ppc X_train y_train X_test y_test;
  y_test ← lift (as_floats y_test);
  mae_bayes ← lift (mean_absolute_error pred_bayes y_test);
  mret (rmse_bayes, mae_bayes, mape_bayes).

(** The main block, for a dataset path (the script sets it to the
    Ballerina dataset); the three numbers are the ones it prints. *)
Definition main (file_path : string) : M rng (float64 * float64 * float64) :=
  with_local {| frames := []; scaler := MinMaxScaler_new (0, 1)%Q |} (
    data ← on_fst (read_csv fs parse_number file_path);
    match data with
    | None => raise TypeError
    | Some (_X, _y, seed) =>
        '(_X, _y, folds) ← lift (cross_validation_folds _X _y seed);
        errors ← on_snd (mapM (evaluate_fold _X _y) folds);
        let rmse_list := errors.*1.*1 in
        let mae_list := errors.*1.*2 in
        let mape_list := errors.*2 in
        mret (np.mean rmse_list, np.mean mape_list, np.mean mae_list)
    end).

End driver.

(** * The rows that pass the error filter *)

(** The number of rows of a table whose cell in the column [col] is a
    number below 5: the rows that remain after the error-rate filter. *)
Definition below_threshold (j : nat) (r : list pd.cell) : bool :=
  match nth j r pd.Null with
  | pd.Num q => pd.Qltb q 5
  | _ => false
  end.

Definition remaining_rows (d : pd.DataFrame) (col : string) : nat :=
  match pd.get_loc col (pd.columns d) with
  | Some j => length (List.filter (below_threshold j) (pd.rows d))
  | None => 0
  end.

(** * Example files *)

Module examples.
Local Open Scope string_scope.

(** A file with the layout of the APIM dataset: 24 columns, the
    scenario name first, the latency last. *)
Definition apim_table : pd.DataFrame :=
  {| pd.columns :=
       [("Name", pd.object);
        ("Concurrent Users", pd.numeric);
        ("Message Size", pd.numeric);
        ("Sleep Time", pd.numeric);
        ("Error %", pd.numeric);
        ("c5", pd.numeric);
        ("c6", pd.numeric);
        ("c7", pd.numeric);
        ("c8", pd.numeric);
        ("c9", pd.numeric);
        ("c10", pd.numeric);
        ("c11", pd.numeric);
        ("c12", pd.numeric);
        ("c13", pd.numeric);
        ("c14", pd.numeric);
        ("c15", pd.numeric);
        ("c16", pd.numeric);
        ("c17", pd.numeric);
        ("c18", pd.numeric);
        ("c19", pd.numeric);
        ("c20", pd.numeric);
        ("c21", pd.numeric);
        ("c22", pd.numeric);
        ("Average (ms)", pd.numeric)];
     pd.rows :=
       [[pd.Str "echo"; pd.Num 50; pd.Num 1024; pd.Num 0; pd.Num 0; pd.Num 0; pd.Num 0; pd.Num 0; pd.Num 0; pd.Num 0; pd.Num 0; pd.Num 0; pd.Num 0; pd.Num 0; pd.Num 0; pd.Num 0; pd.Num 0; pd.Num 0; pd.Num 0; pd.Num 0; pd.Num 0; pd.Num 0; pd.Num 0; pd.Num 12];
        [pd.Str "mediation"; pd.Num 100; pd.Num 1024; pd.Num 30; pd.Num 7; pd.Num 0; pd.Num 0; pd.Num 0; pd.Num 0; pd.Num 0; pd.Num 0; pd.Num 0; pd.Num 0; pd.Num 0; pd.Num 0; pd.Num 0; pd.Num 0; pd.Num 0; pd.Num 0; pd.Num 0; pd.Num 0; pd.Num 0; pd.Num 0; pd.Num 48];
        [pd.Str "echo"; pd.Num 500; pd.Num 10240; pd.Num 0; pd.Num 1; pd.Num 0; pd.Num 0; pd.Num 0; pd.Num 0; pd.Num 0; pd.Num 0; pd.Num 0; pd.Num 0; pd.Num 0; pd.Num 0; pd.Num 0; pd.Num 0; pd.Num 0; pd.Num 0; pd.Num 0; pd.Num 0; pd.Num 0; pd.Num 0; pd.Num 95]] |}.

(** A file with the layout of the Ballerina dataset. *)
Definition ballerina_table : pd.DataFrame :=
  {| pd.columns :=
       [("Name", pd.object); ("Concurrent Users", pd.numeric);
        ("Label", pd.object); ("Message Size", pd.numeric);
        ("Sleep Time", pd.numeric); ("Heap", pd.numeric);
        ("Samples", pd.numeric); ("Error %", pd.numeric);
        ("Min", pd.numeric); ("Average (ms)", pd.numeric)];
     pd.rows :=
       [[pd.Str "passthrough"; pd.Num 50; pd.Str "a"; pd.Num 1024;
         pd.Num 0; pd.Num 2; pd.Num 900; pd.Num 0; pd.Num 1; pd.Num 12];
        [pd.Str "transform"; pd.Num 100; pd.Str "b"; pd.Num 1024;
         pd.Num 30; pd.Num 4; pd.Num 800; pd.Num 7; pd.Num 2; pd.Num 48];
        [pd.Str "echo"; pd.Num 500; pd.Str "c"; pd.Num 10240;
         pd.Num 0; pd.Num 8; pd.Num 700; pd.Num 1; pd.Num 3; pd.Num 95]] |}.

(** A file with the layout of the Springboot dataset. *)
Definition springboot_table : pd.DataFrame :=
  {| pd.columns :=
       [("use case", pd.object); ("heap", pd.object);
        ("collector", pd.object); ("users", pd.numeric);
        ("size", pd.numeric); ("latency", pd.numeric);
        ("error_rate", pd.numeric)];
     pd.rows :=
       [[pd.Str "echo"; pd.Str "100m"; pd.Str "G1"; pd.Num 100;
         pd.Num 10; pd.Num 5; pd.Num 0];
        [pd.Str "prime"; pd.Str "1g"; pd.Str "CMS"; pd.Num 200;
         pd.Num 20; pd.Num 9; pd.Num 2]] |}.

Definition files (path : string) : option pd.DataFrame :=
  if String.eqb path "Datasets/APIM_Dataset.csv" then Some apim_table
  else if String.eqb path "Datasets/Ballerina_Dataset.csv"
       then Some ballerina_table
  else if String.eqb path "Datasets/Springboot_Dataset.csv"
       then Some springboot_table
  else None.

(** A parser of unsigned decimal integers. *)
Fixpoint digits (s : string) (acc : Z) : option Z :=
  match s with
  | String.EmptyString => Some acc
  | String.String c s' =>
      let n := Ascii.nat_of_ascii c in
      if (48 <=? n)%nat && (n <=? 57)%nat
      then digits s' (10 * acc + Z.of_nat (n - 48))%Z
      else None
  end.

Definition parse_unsigned (s : string) : option Q :=
  match s with
  | String.EmptyString => None
  | _ => inject_Z <$> digits s 0%Z
  end.

(** The state at the start of the script, with the scaler that it
    makes, and with the identity transformer instead. *)
Definition start : world MinMaxScaler :=
  {| frames := []; scaler := MinMaxScaler_new (0, 1)%Q |}.

Definition start_identity : world FunctionTransformer :=
  {| frames := []; scaler := FunctionTransformer_new |}.

(** A scaler that has been fit. *)
Definition fitted_scaler : MinMaxScaler :=
  {| feature_range := (0, 1)%Q;
     data_min_ := Some [0; 0; 0; 0]%Q;
     data_max_ := Some [1000; 20000; 100; 10]%Q |}.

(** Ten rows of features and labels. *)
Definition ten_labels : list pd.cell :=
  map (fun i => pd.Num (inject_Z (Z.of_nat i))) (seq 10 10).
Definition ten_features : array :=
  Arr2 (map (fun i => [pd.Num (inject_Z (Z.of_nat i))]) (seq 0 10)).

(** An optimiser that returns the empty point, a sampler whose draws
    are all the same, and a sampler that raises. *)
Definition empty_MAP (m : pm.Model) : result pm.point := Ok [].

Definition constant_sampler (m : pm.Model) (trace : list pm.point)
    (v : string) (n : nat) : M unit (list (list float64)) :=
  fun g => (Ok (repeat [np.Fin 1; np.Fin 3] n), g).

Definition raising_sampler (m : pm.Model) (trace : list pm.point)
    (v : string) (n : nat) : M unit (list (list float64)) :=
  fun g => (Raise (AttributeError "train the model first"), g).

(** An optimiser that fails. *)
Definition failing_MAP (m : pm.Model) : result pm.point := Raise ValueError.


(** An instance that has been fitted and used for a prediction. *)
Definition used_instance : BayesianRBFRegression :=
  {| model := Some (predicting_model ten_features ten_labels 1 ten_features);
     gp := Some (fitted_gp 1);
     map_trace := Some [[("η"%string, np.NaN)]] |}.

(** A permutation that does not depend on the seed: the reverse order. *)
Definition reverse_order (seed : Z) (n : nat) : list nat := rev (seq 0 n).

End examples.

(** * Vocabulary of the properties *)

(** [triple P m Q E]: from a state where [P] holds, [m] ends in a state
    where [Q] holds of its value, or raises in a state where [E] holds. *)
Definition triple {St A} (P : St -> Prop) (m : M St A)
    (Q : A -> St -> Prop) (E : St -> Prop) : Prop :=
  forall st, P st ->
    match m st with
    | (Ok a, st') => Q a st'
    | (Raise _, st') => E st'
    end.

(** A value that is not finite and not minus infinity. *)
Definition inf_or_nan (x : float64) : Prop := x = np.PosInf \/ x = np.NaN.

(** One turn of the loop [df[col] = df[col].astype('category')]. *)
Definition astype_body (df : ref) (col : string) : M heap unit :=
  d ← load df;
  s ← lift (pd.getitem d col);
  d' ← lift (pd.setitem d col (pd.astype_category s));
  store df d'.

(** What the loop leaves of a table [d]: the columns of [cols] have
    become categorical, nothing else has changed. *)
Definition astype_rel (cols : list string) (d d1 : pd.DataFrame) : Prop :=
  pd.well_formed d1 /\
  map fst (pd.columns d1) = map fst (pd.columns d) /\
  length (pd.rows d1) = length (pd.rows d) /\
  (forall col s, In col cols -> pd.getitem d col = Ok s ->
                 pd.getitem d1 col = Ok (pd.astype_category s)) /\
  (forall col, ~ In col cols -> pd.getitem d1 col = pd.getitem d col).


(** The store holds at [df] a table with [n] rows. *)
Definition holds (df : ref) (n : nat) (h : heap) : Prop :=
  exists d, h !! df = Some d /\ length (pd.rows d) = n.

(** The scaler of the state is [s0]. *)
Definition scaler_is {S : Type} (s0 : S) (w : world S) : Prop :=
  scaler w = s0.

(** The features of a returned dataset are a transform by [s0]. *)
Definition transformed_by {S : Type} `{Scaler S} (s0 : S)
    (r : option dataset) : Prop :=
  match r with
  | Some (X, _, _) => exists features, sk_transform s0 features = Ok X
  | None => True
  end.

(** The seed that goes with a returned dataset. *)
Definition seed_is (path : string) (r : option dataset) : Prop :=
  forall X y seed, r = Some (X, y, seed) ->
    (path = "Datasets/APIM_Dataset.csv"%string /\ seed = 42%Z) \/
    (path = "Datasets/Ballerina_Dataset.csv"%string /\ seed = 65%Z) \/
    (path = "Datasets/Springboot_Dataset.csv"%string /\ seed = 42%Z).

(** The labels of a returned dataset have [n] values. *)
Definition labels_are (n : nat) (r : option dataset) : Prop :=
  forall X y seed, r = Some (X, y, seed) -> length y = n.

(** The attribute [model] of an instance is set. *)
Definition trained (self : BayesianRBFRegression) : Prop :=
  is_Some (model self).


(** The scaler has been fit on some features, and the features of the
    returned dataset are its transform of the same features. *)
Definition fit_then_transformed {S : Type} `{Scaler S} (s0 : S)
    (r : option dataset) (w : world S) : Prop :=
  match r with
  | Some (X, _, _) =>
      exists features s',
        sk_fit s0 features = Ok s' /\ scaler w = s' /\
        sk_transform s' features = Ok X
  | None => True
  end.

(** The tables that the store [h0] holds are in the store [h] as they
    are in [h0]. *)
Definition keeps_tables (h0 h : heap) : Prop :=
  forall r, (r < length h0)%nat -> h !! r = h0 !! r.

(** The rows of two arrays of the same kind, each with its label, are
    the same pairs in another order. *)
Definition same_pairs (X X' : array) (y y' : list pd.cell) : Prop :=
  match X, X' with
  | Arr1 v, Arr1 v' => Permutation (zip v' y') (zip v y)
  | Arr2 rows, Arr2 rows' => Permutation (zip rows' y') (zip rows y)
  | _, _ => False
  end.

(* ================================================================== *)
(** * Properties *)

(** ** The metrics *)

(** Case analysis on every comparison of reals in the goal. *)
Ltac case_reals :=
  repeat (unfold np.flip_if_neg;
          match goal with
          | |- context [Req_dec_T ?x ?y] => destruct (Req_dec_T x y)
          | |- context [Rlt_dec ?x ?y] => destruct (Rlt_dec x y)
          end; simpl).

Section metrics_facts.
Local Open Scope R_scope.

Lemma elementwise_same_length f (a b : list float64) :
  length a = length b -> np.elementwise f a b = Ok (zip_with f a b).
Proof.
  intros E. unfold np.elementwise.
  destruct (Nat.eqb_spec (length a) (length b)); [reflexivity | contradiction].
Qed.

Lemma zip_with_diag {A B} (f : A -> A -> B) (l : list A) :
  zip_with f l l = map (fun x => f x x) l.
Proof. induction l as [|x l IH]; simpl; [reflexivity | now rewrite IH]. Qed.

Lemma zip_with_map_diag {A B C D} (f : B -> C -> D) (g : A -> B)
    (h : A -> C) (l : list A) :
  zip_with f (map g l) (map h l) = map (fun x => f (g x) (h x)) l.
Proof. induction l as [|x l IH]; simpl; [reflexivity | now rewrite IH]. Qed.

Lemma sum_zeros (l : list float64) :
  Forall (fun x => x = np.Fin 0) l -> np.sum l = np.Fin 0.
Proof.
  unfold np.sum.
  induction 1 as [|x l Hx _ IH]; simpl; [reflexivity |].
  rewrite IH, Hx. simpl. f_equal. lra.
Qed.

Lemma INR_length_nonzero {A} (l : list A) : l <> [] -> INR (length l) <> 0.
Proof.
  destruct l as [|x l]; [contradiction | intros _].
  simpl length. rewrite S_INR. pose proof (pos_INR (length l)). lra.
Qed.

Lemma mean_zeros (l : list float64) :
  l <> [] -> Forall (fun x => x = np.Fin 0) l -> np.mean l = np.Fin 0.
Proof.
  intros Hne Hz. unfold np.mean. rewrite (sum_zeros l Hz).
  unfold np.of_nat, np.div.
  destruct (Req_dec_T (INR (length l)) 0) as [E|_].
  - now apply INR_length_nonzero in E.
  - f_equal. unfold Rdiv. lra.
Qed.

Lemma sqrt_zero : np.sqrt (np.Fin 0) = np.Fin 0.
Proof.
  simpl. destruct (Rlt_dec 0 0); [lra |]. now rewrite sqrt_0.
Qed.

Lemma forallb_isfinite_Fin (a : list R) :
  forallb np.isfinite (map np.Fin a) = true.
Proof. induction a; simpl; auto. Qed.

Lemma check_reg_targets_finite (a b : list R) :
  a <> [] -> length a = length b ->
  check_reg_targets (map np.Fin a) (map np.Fin b) = Ok ().
Proof.
  intros Hne E. unfold check_reg_targets.
  rewrite !length_map, E, Nat.eqb_refl. simpl.
  destruct b as [|x b]; [destruct a; [contradiction | discriminate] |].
  simpl length. simpl Nat.eqb. cbv iota.
  now rewrite !forallb_isfinite_Fin.
Qed.

(** C4. For a non-empty sequence [a] of numbers, the root mean squared
    error and the mean absolute error of [a] against itself are 0, and so
    is the mean absolute percentage error when no element of [a] is 0. *)
Theorem metrics_of_a_sequence_with_itself (a : list R) :
  a <> [] ->
  root_mean_squared_error (map np.Fin a) (map np.Fin a) = Ok (np.Fin 0) /\
  mean_absolute_error (map np.Fin a) (map np.Fin a) = Ok (np.Fin 0) /\
  (Forall (fun x => x <> 0) a ->
   mean_absolute_percentage_error (map np.Fin a) (map np.Fin a)
     = Ok (np.Fin 0)).
Proof.
  intros Hne.
  assert (Hne' : forall (g : R -> float64), map g a <> []).
  { intros g. destruct a; [contradiction | discriminate]. }
  unfold root_mean_squared_error, mean_squared_error, mean_absolute_error,
    mean_absolute_percentage_error.
  rewrite (check_reg_targets_finite a a Hne eq_refl).
  rewrite !elementwise_same_length by reflexivity.
  cbn [mbind result_bind mret result_ret fmap result_fmap].
  rewrite !zip_with_diag, !map_map.
  repeat split.
  - rewrite mean_zeros; [now rewrite sqrt_zero | apply Hne' |].
    apply Forall_map, Forall_true. intros x. simpl. f_equal. lra.
  - rewrite mean_zeros; [reflexivity | apply Hne' |].
    apply Forall_map, Forall_true. intros x. simpl. f_equal.
    replace (x + - x) with 0 by lra. apply Rabs_R0.
  - intros Hnz.
    rewrite elementwise_same_length by now rewrite !length_map.
    cbn [mbind result_bind mret result_ret].
    rewrite zip_with_map_diag, map_map.
    rewrite mean_zeros; [simpl; f_equal; f_equal; lra | apply Hne' |].
    apply Forall_map. eapply Forall_impl; [exact Hnz |].
    intros x Hx. simpl.
    destruct (Req_dec_T x 0) as [E|_]; [contradiction |]. simpl.
    f_equal. replace (x + - x) with 0 by lra.
    unfold Rdiv. rewrite Rmult_0_l. apply Rabs_R0.
Qed.

Lemma metrics_of_a_sequence_with_itself_witness :
  [1; 2] <> [] /\ Forall (fun x => x <> 0) [1; 2] /\
  root_mean_squared_error (map np.Fin [1; 2]) (map np.Fin [1; 2])
    = Ok (np.Fin 0) /\
  mean_absolute_error (map np.Fin [1; 2]) (map np.Fin [1; 2])
    = Ok (np.Fin 0) /\
  mean_absolute_percentage_error (map np.Fin [1; 2]) (map np.Fin [1; 2])
    = Ok (np.Fin 0).
Proof.
  assert (Hne : [1; 2] <> ([] : list R)) by discriminate.
  assert (Hnz : Forall (fun x => x <> 0) [1; 2])
    by (repeat constructor; lra).
  destruct (metrics_of_a_sequence_with_itself [1; 2] Hne) as (H1 & H2 & H3).
  repeat split; [exact Hne | exact Hnz | exact H1 | exact H2 | exact (H3 Hnz)].
Defined.





Lemma abs_not_NegInf (x : float64) : np.abs x <> np.NegInf.
Proof. destruct x; discriminate. Qed.

Lemma abs_div_zero (d : float64) :
  inf_or_nan (np.abs (np.div d (np.Fin 0))).
Proof.
  unfold inf_or_nan.
  destruct d as [e| | |]; simpl; case_reals; auto; lra.
Qed.

Lemma sum_not_NegInf (l : list float64) :
  Forall (fun x => x <> np.NegInf) l -> np.sum l <> np.NegInf.
Proof.
  unfold np.sum. induction 1 as [|x l Hx _ IH]; simpl; [discriminate |].
  destruct x, (foldr np.add (np.Fin 0) l); simpl; congruence.
Qed.

Lemma sum_inf_or_nan (l : list float64) :
  Forall (fun x => x <> np.NegInf) l -> Exists inf_or_nan l ->
  inf_or_nan (np.sum l).
Proof.
  intros Hall Hex. induction Hex as [x l Hx | x l _ IH].
  - apply Forall_cons_1 in Hall as [_ Hl].
    apply sum_not_NegInf in Hl. unfold np.sum in *. simpl.
    destruct Hx as [-> | ->], (foldr np.add (np.Fin 0) l);
      simpl; unfold inf_or_nan; auto; congruence.
  - apply Forall_cons_1 in Hall as [Hx Hl].
    specialize (IH Hl). unfold np.sum in *. simpl.
    destruct IH as [-> | ->], x; simpl; unfold inf_or_nan; auto; congruence.
Qed.

Lemma zero_label_term (y_true y_pred : list float64) :
  length y_true = length y_pred -> In (np.Fin 0) y_true ->
  Exists inf_or_nan
    (map np.abs (zip_with np.div (zip_with np.sub y_true y_pred) y_true)).
Proof.
  revert y_pred. induction y_true as [|t y_true IH]; intros [|p y_pred] Hlen Hin;
    try discriminate; try (now destruct Hin).
  simpl. destruct Hin as [-> | Hin].
  - apply Exists_cons_hd, abs_div_zero.
  - apply Exists_cons_tl, IH; [now injection Hlen | exact Hin].
Qed.

(** C6. When some true value is zero, the unguarded division makes the
    mean absolute percentage error an infinity or [NaN]: the function
    returns (numpy only warns), and what it returns is not finite. *)
Theorem mape_zero_label_not_finite (y_true y_pred : list float64) :
  length y_true = length y_pred ->
  In (np.Fin 0) y_true ->
  exists v, mean_absolute_percentage_error y_true y_pred = Ok v /\
            np.isfinite v = false.
Proof.
  intros Hlen Hin. unfold mean_absolute_percentage_error.
  rewrite (elementwise_same_length np.sub y_true y_pred Hlen).
  cbn [mbind result_bind].
  rewrite elementwise_same_length by (rewrite length_zip_with; lia).
  cbn [mbind result_bind mret result_ret].
  eexists; split; [reflexivity |].
  set (terms := map np.abs _).
  assert (Hs : inf_or_nan (np.sum terms)).
  { apply sum_inf_or_nan; [| now apply zero_label_term].
    apply Forall_map, Forall_true. intros x. apply abs_not_NegInf. }
  assert (Hn : INR (length terms) <> 0).
  { apply INR_length_nonzero. subst terms.
    destruct y_true; [destruct Hin |]. destruct y_pred; discriminate. }
  unfold np.mean, np.of_nat.
  pose proof (pos_INR (length terms)) as Hpos.
  destruct Hs as [-> | ->]; simpl; [| reflexivity].
  case_reals; try reflexivity; lra.
Qed.

Lemma mape_zero_label_not_finite_witness :
  exists v, mean_absolute_percentage_error [np.Fin 0; np.Fin 2]
                                           [np.Fin 1; np.Fin 2] = Ok v /\
            np.isfinite v = false.
Proof.
  apply mape_zero_label_not_finite; [reflexivity | now left].
Defined.

End metrics_facts.

(** ** The cross-validation folds *)

Section folds_facts.


Lemma sum_list_snoc (l : list nat) (x : nat) :
  sum_list (l ++ [x]) = (sum_list l + x)%nat.
Proof. induction l; simpl; lia. Qed.

(** Among the first [k] indices, [r] are below [r]. *)
Lemma sum_extra (q r k : nat) :
  (r <= k)%nat ->
  sum_list (map (fun i => (q + (if (i <? r) then 1 else 0))%nat) (seq 0 k))
  = (k * q + r)%nat.
Proof.
  induction k as [|k IH]; intros Hr.
  - simpl. lia.
  - rewrite seq_S, map_app. cbn [map]. rewrite sum_list_snoc.
    change (0 + k)%nat with k.
    destruct (Nat.ltb_spec k r) as [Hlt|Hge].
    + assert (r = S k) by lia. subst r.
      rewrite (map_ext_in _ (fun _ => (q + 1)%nat)).
      * change (map (fun _ => (q + 1)%nat) (seq 0 k))
          with ((fun _ => (q + 1)%nat) <$> seq 0 k).
        rewrite sum_list_fmap_const, length_seq. lia.
      * intros i Hi. apply in_seq in Hi.
        destruct (Nat.ltb_spec i (S k)); lia.
    + rewrite IH by lia. lia.
Qed.

Lemma sum_fold_sizes (k n : nat) :
  (0 < k)%nat -> sum_list (fold_sizes k n) = n.
Proof.
  intros Hk. unfold fold_sizes. rewrite sum_extra.
  - pose proof (Nat.div_mod_eq n k). lia.
  - pose proof (Nat.mod_upper_bound n k). lia.
Qed.






Lemma lookup_map {A B} (f : A -> B) (l : list A) (i : nat) :
  map f l !! i = f <$> (l !! i).
Proof. revert i. induction l; intros [|i]; simpl; auto. Qed.


(** Indexing with positions that are all in range. *)
Lemma np_take_nth {A} (d : A) (index : list nat) (l : list A) :
  Forall (fun i => (i < length l)%nat) index ->
  np_take index l = Ok (map (fun i => nth i l d) index).
Proof.
  unfold np_take. induction 1 as [|i index Hi _ IH]; [reflexivity |].
  cbn [mapM map]. rewrite IH.
  destruct (lookup_lt_is_Some_2 l i Hi) as [x Hx].
  rewrite Hx, (nth_lookup_Some l i d x Hx). reflexivity.
Qed.

Lemma map_nth_seq {A} (d : A) (l : list A) :
  map (fun i => nth i l d) (seq 0 (length l)) = l.
Proof.
  induction l as [|x l IH]; [reflexivity |].
  simpl. f_equal. rewrite <- seq_shift, map_map. exact IH.
Qed.

Lemma np_take_permutation {A} (index : list nat) (l : list A) :
  Permutation index (seq 0 (length l)) ->
  exists l', np_take index l = Ok l' /\ Permutation l' l /\
             length l' = length l.
Proof.
  intros Hp.
  assert (Hr : Forall (fun i => (i < length l)%nat) index).
  { apply List.Forall_forall. intros i Hi.
    apply (Permutation_in _ Hp), in_seq in Hi. lia. }
  destruct l as [|d l'].
  - apply Permutation_nil_r in Hp. subst index.
    exists []. repeat split; constructor.
  - set (l := d :: l') in *.
    exists (map (fun i => nth i l d) index). split; [| split].
    + now apply np_take_nth.
    + etransitivity; [apply Permutation_map, Hp |].
      now rewrite map_nth_seq.
    + rewrite length_map, (Permutation_length Hp). apply length_seq.
Qed.

End folds_facts.

Section cross_validation_facts.

Variable permutation : Z -> nat -> list nat.
Hypothesis permutation_spec :
  forall seed n, Permutation (permutation seed n) (seq 0 n).


End cross_validation_facts.

(** ** Running the state monad *)

Section monad_facts.
Context {St : Type}.

Lemma bind_Ok {A B} (m : M St A) (f : A -> M St B) st a st' :
  m st = (Ok a, st') -> (m ≫= f) st = f a st'.
Proof. intros E. unfold mbind, M_bind. now rewrite E. Qed.

Lemma bind_Raise {A B} (m : M St A) (f : A -> M St B) st e st' :
  m st = (Raise e, st') -> (m ≫= f) st = (Raise e, st').
Proof. intros E. unfold mbind, M_bind. now rewrite E. Qed.

Lemma bind_Ok_inv {A B} (m : M St A) (f : A -> M St B) st b st' :
  (m ≫= f) st = (Ok b, st') ->
  exists a st1, m st = (Ok a, st1) /\ f a st1 = (Ok b, st').
Proof.
  unfold mbind, M_bind. destruct (m st) as [[a|e] st1]; [| discriminate].
  intros E. now exists a, st1.
Qed.

Lemma bind_lift_Ok {A B} (a : A) (f : A -> M St B) st :
  (lift (Ok a) ≫= f) st = f a st.
Proof. reflexivity. Qed.

Lemma bind_lift_Raise {A B} (e : exn) (f : A -> M St B) st :
  (lift (Raise e) ≫= f) st = (Raise e, st).
Proof. reflexivity. Qed.

Lemma on_fst_run {St2 A} (m : M St A) (st1 st1' : St) (st2 : St2) r :
  m st1 = (r, st1') -> on_fst m (st1, st2) = (r, (st1', st2)).
Proof. intros E. unfold on_fst. simpl. now rewrite E. Qed.

Lemma on_snd_run {St1 A} (m : M St A) (st1 : St1) (st2 st2' : St) r :
  m st2 = (r, st2') -> on_snd m (st1, st2) = (r, (st1, st2')).
Proof. intros E. unfold on_snd. simpl. now rewrite E. Qed.

Lemma lift_Ok_inv {A} (r : result A) (st : St) a st' :
  lift r st = (Ok a, st') -> r = Ok a /\ st' = st.
Proof. unfold lift. now intros [= -> ->]. Qed.

End monad_facts.

(** ** Tables *)

Section tables_facts.
Import pd.

Lemma get_loc_lookup (name : string) (cols : list (string * dtype)) (j : nat) :
  get_loc name cols = Some j -> (map fst cols) !! j = Some name.
Proof.
  revert j. induction cols as [|[n dt] cols IH]; intros j; simpl;
    [discriminate |].
  destruct (String.eqb_spec n name) as [-> | _].
  - now intros [= <-].
  - destruct (get_loc name cols) as [i|]; [| discriminate].
    intros [= <-]. now apply IH.
Qed.

Lemma get_loc_names (name : string) (c1 c2 : list (string * dtype)) :
  map fst c1 = map fst c2 -> get_loc name c1 = get_loc name c2.
Proof.
  revert c2. induction c1 as [|[n1 d1] c1 IH]; intros [|[n2 d2] c2];
    simpl; try discriminate; [reflexivity |].
  intros [= -> E]. now rewrite (IH c2 E).
Qed.

Lemma get_loc_lt (name : string) (cols : list (string * dtype)) (j : nat) :
  get_loc name cols = Some j -> (j < length cols)%nat.
Proof.
  intros E. apply get_loc_lookup, lookup_lt_Some in E.
  now rewrite length_map in E.
Qed.

Lemma get_loc_inj (n1 n2 : string) (cols : list (string * dtype)) (j : nat) :
  get_loc n1 cols = Some j -> get_loc n2 cols = Some j -> n1 = n2.
Proof.
  intros E1 E2. apply get_loc_lookup in E1, E2. congruence.
Qed.

Lemma names_insert (cols : list (string * dtype)) (name : string)
    (dt : dtype) (j : nat) :
  get_loc name cols = Some j ->
  map fst (<[j := (name, dt)]> cols) = map fst cols.
Proof.
  intros E. apply get_loc_lookup in E.
  change (fst <$> <[j := (name, dt)]> cols = fst <$> cols).
  rewrite list_fmap_insert. now apply list_insert_id.
Qed.

(** Writing the column [j] of every row. *)
Lemma column_at_insert_same (j : nat) (rs : list (list cell))
    (vals : list cell) :
  length vals = length rs ->
  Forall (fun r => (j < length r)%nat) rs ->
  map (fun r => nth j r Null) (zip_with (fun r v => <[j := v]> r) rs vals)
  = vals.
Proof.
  intros Hlen Hall. revert vals Hlen.
  induction Hall as [|r rs Hr _ IH]; intros [|v vals] Hlen;
    try discriminate; [reflexivity |].
  simpl. f_equal; [| apply IH; now injection Hlen].
  rewrite nth_lookup, list_lookup_insert_eq by exact Hr. reflexivity.
Qed.

Lemma column_at_insert_other (j j' : nat) (rs : list (list cell))
    (vals : list cell) :
  j <> j' -> length vals = length rs ->
  map (fun r => nth j' r Null) (zip_with (fun r v => <[j := v]> r) rs vals)
  = map (fun r => nth j' r Null) rs.
Proof.
  intros Hj. revert vals.
  induction rs as [|r rs IH]; intros [|v vals] Hlen;
    try discriminate; [reflexivity |].
  simpl. f_equal; [| apply IH; now injection Hlen].
  now rewrite !nth_lookup, list_lookup_insert_ne.
Qed.

Lemma zip_with_insert_widths (j n : nat) (rs : list (list cell))
    (vals : list cell) :
  Forall (fun r => length r = n) rs ->
  Forall (fun r => length r = n) (zip_with (fun r v => <[j := v]> r) rs vals).
Proof.
  intros Hall. revert vals.
  induction Hall as [|r rs Hr _ IH]; intros [|v vals]; simpl;
    try constructor; [now rewrite length_insert | apply IH].
Qed.

Lemma getitem_length (d : DataFrame) (name : string) (s : Series) :
  getitem d name = Ok s -> length (values s) = length (rows d).
Proof.
  unfold getitem. destruct (get_loc name (columns d)); [| discriminate].
  intros [= <-]. simpl. unfold column_at. apply length_map.
Qed.

Lemma getitem_names (d1 d2 : DataFrame) (name : string) :
  map fst (columns d1) = map fst (columns d2) ->
  is_ok (getitem d1 name) = is_ok (getitem d2 name).
Proof.
  intros E. unfold getitem. rewrite (get_loc_names name _ _ E).
  now destruct (get_loc name (columns d2)).
Qed.

(** Assigning to a column that the table has. *)
Lemma setitem_existing (d : DataFrame) (col : string) (s0 s : Series) :
  well_formed d ->
  getitem d col = Ok s0 ->
  length (values s) = length (rows d) ->
  exists d1,
    setitem d col s = Ok d1 /\
    well_formed d1 /\
    map fst (columns d1) = map fst (columns d) /\
    length (rows d1) = length (rows d) /\
    getitem d1 col = Ok s /\
    (forall col', col' <> col -> getitem d1 col' = getitem d col').
Proof.
  intros Hwf Hget Hlen. unfold getitem in Hget.
  destruct (get_loc col (columns d)) as [j|] eqn:Ej; [| discriminate].
  clear Hget. pose proof (get_loc_lt _ _ _ Ej) as Hj.
  unfold setitem. rewrite Hlen, Nat.eqb_refl, Ej. cbn [negb].
  eexists. split; [reflexivity |].
  assert (Hn : map fst (<[j := (col, s_dtype s)]> (columns d))
               = map fst (columns d)) by now apply names_insert.
  split; [| split; [exact Hn | split; [| split]]].
  - unfold well_formed. simpl. rewrite length_insert.
    now apply zip_with_insert_widths.
  - simpl. rewrite length_zip_with. lia.
  - unfold getitem. simpl. rewrite (get_loc_names col _ _ Hn), Ej.
    unfold column_at. simpl.
    rewrite column_at_insert_same; [| exact Hlen |].
    + rewrite nth_lookup, list_lookup_insert_eq by exact Hj. simpl.
      now destruct s.
    + eapply Forall_impl; [exact Hwf |]. simpl. intros r ->. exact Hj.
  - intros col' Hne. unfold getitem. simpl.
    rewrite (get_loc_names col' _ _ Hn).
    destruct (get_loc col' (columns d)) as [j'|] eqn:Ej'; [| reflexivity].
    assert (j <> j') by (intros ->; apply Hne; eapply get_loc_inj; eauto).
    unfold column_at. simpl.
    rewrite column_at_insert_other by assumption.
    now rewrite !nth_lookup, list_lookup_insert_ne.
Qed.

(** The codes are integers from -1 up to the number of categories, and
    -1 stands for a missing value. *)
Lemma position_lt (x : cell) (cats : list cell) (i : nat) :
  position x cats = Some i -> (i < length cats)%nat.
Proof.
  revert i. induction cats as [|c cats IH]; intros i; simpl; [discriminate |].
  destruct (cell_eqb x c); [intros [= <-]; lia |].
  destruct (position x cats) as [j|]; [| discriminate].
  intros [= <-]. specialize (IH j eq_refl). lia.
Qed.

Lemma code_range (cats : list cell) (x : cell) :
  (-1 <= code cats x < Z.of_nat (length cats))%Z.
Proof.
  unfold code. destruct (position x cats) as [i|] eqn:E.
  - apply position_lt in E. lia.
  - lia.
Qed.

Lemma code_Null (cats : list cell) : code cats Null = (-1)%Z.
Proof.
  unfold code. assert (E : position Null cats = None).
  { induction cats as [|c cats IH]; simpl; [reflexivity |]. now rewrite IH. }
  now rewrite E.
Qed.

Lemma codes_integers (l : list cell) :
  Forall (fun c => exists z, c = Num (inject_Z z) /\
                             (-1 <= z < Z.of_nat (length (categories l)))%Z)
         (codes l).
Proof.
  unfold codes. apply List.Forall_forall. intros c Hc.
  apply in_map_iff in Hc as (x & <- & _).
  eexists. split; [reflexivity | apply code_range].
Qed.

End tables_facts.

(** ** Encoding categories in place *)

Section category_to_int_facts.
Import pd.

Lemma load_lookup (h : heap) (r : ref) (d : DataFrame) :
  h !! r = Some d -> load r h = (Ok d, h).
Proof. intros E. unfold load. now rewrite E. Qed.






End category_to_int_facts.

(** ** Triples for the state monad *)

Section triple_rules.
Context {St : Type}.
Implicit Types (P E : St -> Prop).

Lemma triple_bind {A B} P (m : M St A) (f : A -> M St B) Q1 Q E :
  triple P m Q1 E -> (forall a, triple (Q1 a) (f a) Q E) ->
  triple P (m ≫= f) Q E.
Proof.
  intros Hm Hf st HP. specialize (Hm st HP).
  unfold mbind, M_bind. destruct (m st) as [[a|e] st1]; [| exact Hm].
  now apply Hf.
Qed.

Lemma triple_ret {A} P (a : A) (Q : A -> St -> Prop) E :
  (forall st, P st -> Q a st) -> triple P (mret a) Q E.
Proof. intros H st HP. now apply H. Qed.

Lemma triple_lift {A} P (r : result A) (Q : A -> St -> Prop) E :
  (forall st, P st -> match r with Ok a => Q a st | Raise _ => E st end) ->
  triple P (lift r) Q E.
Proof.
  intros H st HP. specialize (H st HP). unfold lift. now destruct r.
Qed.

Lemma triple_raise {A} P (e : exn) (Q : A -> St -> Prop) E :
  (forall st, P st -> E st) -> triple P (raise e) Q E.
Proof. intros H st HP. now apply H. Qed.

Lemma triple_conseq {A} P P' (m : M St A) (Q Q' : A -> St -> Prop) E E' :
  triple P' m Q' E' ->
  (forall st, P st -> P' st) ->
  (forall a st, Q' a st -> Q a st) ->
  (forall st, E' st -> E st) ->
  triple P m Q E.
Proof.
  intros Hm HP HQ HE st Hst. specialize (Hm st (HP st Hst)).
  destruct (m st) as [[a|e] st1]; auto.
Qed.

(** What holds of every state holds after any computation. *)
Lemma triple_invariant {A} (inv : Prop) (m : M St A) :
  inv -> triple (fun _ => inv) m (fun _ _ => inv) (fun _ => inv).
Proof. intros Hinv st _. now destruct (m st) as [[a|e] st1]. Qed.

Lemma triple_for_each {A} P (l : list A) (body : A -> M St unit) E :
  (forall x, In x l -> triple P (body x) (fun _ => P) E) ->
  triple P (for_each l body) (fun _ => P) E.
Proof.
  induction l as [|x l IH]; intros Hbody.
  - now apply triple_ret.
  - cbn [for_each]. eapply triple_bind; [apply Hbody; now left |].
    intros []. apply IH. intros y Hy. apply Hbody. now right.
Qed.

End triple_rules.

(** ** The loader and the scaler *)

Section read_csv_facts.
Local Open Scope string_scope.

Variable fs : string -> option pd.DataFrame.
Variable parse_number : string -> option Q.
Context {S : Type} `{Scaler S}.

Lemma recognized_cases (path : string) (P : string -> Prop) :
  recognized path ->
  P "Datasets/APIM_Dataset.csv" -> P "Datasets/Ballerina_Dataset.csv" ->
  P "Datasets/Springboot_Dataset.csv" -> P path.
Proof. now intros [-> | [-> | ->]]. Qed.

Lemma on_frames_scaler {A} (s0 : S) (m : M heap A) :
  triple (scaler_is s0) (on_frames m) (fun _ => scaler_is s0) (scaler_is s0).
Proof.
  intros w Hw. unfold on_frames.
  destruct (m (frames w)) as [[a|e] h']; exact Hw.
Qed.

Lemma lift_scaler {A} (s0 : S) (r : result A) :
  triple (scaler_is s0) (lift r) (fun _ => scaler_is s0) (scaler_is s0).
Proof. apply triple_lift. intros w Hw. now destruct r. Qed.

Lemma hasattr_scaler (s0 : S) :
  triple (scaler_is s0) hasattr_data_max_
    (fun b w => b = has_data_max_ s0 /\ scaler_is s0 w) (scaler_is s0).
Proof. intros w Hw. simpl. now rewrite Hw. Qed.

Lemma transform_scaler (s0 : S) (X0 : array) :
  triple (scaler_is s0) (scaler_transform X0)
    (fun X w => sk_transform s0 X0 = Ok X /\ scaler_is s0 w) (scaler_is s0).
Proof.
  intros w Hw. unfold scaler_transform. rewrite Hw.
  now destruct (sk_transform s0 X0).
Qed.

Lemma fit_skipped (s0 : S) (fitted : bool) (X0 : array) :
  has_data_max_ s0 = true ->
  triple (fun w => fitted = has_data_max_ s0 /\ scaler_is s0 w)
    (if negb fitted then scaler_fit X0 else mret ())
    (fun _ => scaler_is s0) (scaler_is s0).
Proof. intros Hfit w [-> Hw]. now rewrite Hfit. Qed.

Lemma read_csv_fitted (s0 : S) (path : string) :
  recognized path -> has_data_max_ s0 = true ->
  triple (scaler_is s0) (read_csv fs parse_number path)
    (fun r w => scaler_is s0 w /\ transformed_by s0 r) (scaler_is s0).
Proof.
  intros Hpath Hfit. pattern path.
  apply (recognized_cases path); [exact Hpath | | |];
    unfold read_csv; cbv zeta;
    (eapply triple_bind; [apply on_frames_scaler | intros ?]);
    cbn [String.eqb Ascii.eqb Bool.eqb];
    repeat (eapply triple_bind;
            [first [ apply on_frames_scaler | apply lift_scaler
                   | apply hasattr_scaler | apply fit_skipped; exact Hfit ]
            | intros ?]);
    (eapply triple_bind; [apply transform_scaler | intros ?]);
    apply triple_ret; intros w [HX Hw]; (split; [exact Hw |]);
    simpl; eauto.
Qed.

(** C9. Called on a recognized path with a scaler that is already fit
    (the attribute [data_max_] is set), [read_csv] does not fit it
    again: whether the call returns or raises, the scaler is left as it
    was, and the features returned are what [transform] of that scaler
    gives. *)
Theorem read_csv_keeps_fitted_scaler (path : string) (w : world S) :
  recognized path ->
  has_data_max_ (scaler w) = true ->
  scaler (read_csv fs parse_number path w).2 = scaler w /\
  forall X y seed,
    (read_csv fs parse_number path w).1 = Ok (Some (X, y, seed)) ->
    exists features, sk_transform (scaler w) features = Ok X.
Proof.
  intros Hpath Hfit.
  pose proof (read_csv_fitted (scaler w) path Hpath Hfit w eq_refl) as Ht.
  destruct (read_csv fs parse_number path w) as [[r|e] w']; simpl.
  - destruct Ht as [Hw Hr]. split; [exact Hw |].
    intros X y seed [= ->]. exact Hr.
  - split; [exact Ht | discriminate].
Qed.

Lemma read_csv_seed_triple (path : string) :
  triple (fun _ => True) (read_csv fs parse_number path)
    (fun r _ => seed_is path r) (fun _ => True).
Proof.
  unfold read_csv; cbv zeta.
  eapply triple_bind; [apply (triple_invariant True); exact I | intros ?].
  destruct (String.eqb_spec path "Datasets/APIM_Dataset.csv") as [-> | _];
    [| destruct (String.eqb_spec path "Datasets/Ballerina_Dataset.csv")
         as [-> | _];
       [| destruct (String.eqb_spec path "Datasets/Springboot_Dataset.csv")
            as [-> | _]]];
    repeat (eapply triple_bind;
            [apply (triple_invariant True); exact I | intros ?]);
    apply triple_ret; intros _ _ X y seed; try discriminate;
    intros [= _ _ <-]; auto.
Qed.

(** C2, as the code has it.  The seed that [read_csv] returns is a
    constant fixed by the path: 42 for the APIM dataset, 65 for the
    Ballerina dataset, 42 for the Springboot dataset.  The seed of the
    Ballerina dataset differs from the other two; the APIM and the
    Springboot datasets have the same seed. *)
Theorem read_csv_seed (path : string) (w : world S) (X : array)
    (y : list pd.cell) (seed : Z) :
  (read_csv fs parse_number path w).1 = Ok (Some (X, y, seed)) ->
  (path = "Datasets/APIM_Dataset.csv" /\ seed = 42%Z) \/
  (path = "Datasets/Ballerina_Dataset.csv" /\ seed = 65%Z) \/
  (path = "Datasets/Springboot_Dataset.csv" /\ seed = 42%Z).
Proof.
  intros Hr. pose proof (read_csv_seed_triple path w I) as Ht.
  destruct (read_csv fs parse_number path w) as [[r|e] w'];
    [| discriminate].
  simpl in Hr. injection Hr as ->. exact (Ht X y seed eq_refl).
Qed.

End read_csv_facts.

(** ** The labels that the loader returns *)

Section triple_more.
Context {St : Type}.

Lemma triple_pure {A} (phi : Prop) (P : St -> Prop) (m : M St A) Q E :
  (phi -> triple P m Q E) -> triple (fun st => phi /\ P st) m Q E.
Proof. intros Hm st [Hphi HP]. now apply Hm. Qed.

Lemma triple_pure_only {A} (phi : Prop) (m : M St A) Q E :
  (phi -> triple (fun _ => True) m Q E) -> triple (fun _ => phi) m Q E.
Proof. intros Hm st Hphi. now apply Hm. Qed.

Lemma triple_lift_bind {A B} (P : St -> Prop) (r : result A)
    (f : A -> M St B) Q (E : St -> Prop) :
  (forall a, r = Ok a -> triple P (f a) Q E) ->
  (forall st, P st -> E st) ->
  triple P (lift r ≫= f) Q E.
Proof.
  intros Hf HE st HP. destruct r as [a|e].
  - rewrite bind_lift_Ok. now apply Hf.
  - rewrite bind_lift_Raise. now apply HE.
Qed.

(** Any computation, when nothing is asked of its exceptions. *)
Lemma triple_any {A} (P : St -> Prop) (m : M St A) :
  triple P m (fun _ _ => True) (fun _ => True).
Proof. intros st _. now destruct (m st) as [[a|e] st1]. Qed.

End triple_more.

Section row_count_facts.
Import pd.

Lemma mapM_Ok_inv {A B} (f : A -> result B) (l : list A) (l' : list B) :
  mapM f l = Ok l' -> Forall2 (fun x y => f x = Ok y) l l'.
Proof.
  revert l'. induction l as [|x l IH]; intros l'; cbn [mapM].
  - intros [= <-]. constructor.
  - destruct (f x) as [y|e] eqn:Ex; [| discriminate].
    cbn [mbind result_bind].
    destruct (mapM f l) as [k|e]; [| discriminate].
    intros [= <-]. constructor; [exact Ex | now apply IH].
Qed.

Lemma select_length (j : nat) (rs : list (list cell)) (mask : list bool) :
  Forall2 (fun x b => match x with
                      | Num q => Ok (Qltb q 5)
                      | Null => Ok false
                      | Str _ => Raise TypeError
                      end = Ok b)
          (map (fun r => nth j r Null) rs) mask ->
  length (select mask rs) = length (List.filter (below_threshold j) rs).
Proof.
  revert mask. induction rs as [|r rs IH]; intros mask Hm.
  - inversion Hm. reflexivity.
  - inversion Hm as [|x b l k Hb Hrest]; subst.
    specialize (IH k Hrest). unfold select in *. cbn [zip_with List.filter].
    unfold below_threshold at 1.
    destruct (nth j r Null) as [q| |]; try discriminate;
      injection Hb as <-; [destruct (Qltb q 5) |]; simpl; now rewrite IH.
Qed.

Lemma error_filter_rows (df : ref) (col : string) (d : DataFrame) :
  triple (fun h => h !! df = Some d) (error_filter df col)
    (fun r => holds r (remaining_rows d col)) (fun _ => True).
Proof.
  intros h Hdf. unfold error_filter.
  rewrite (bind_Ok _ _ _ _ _ (load_lookup h df d Hdf)).
  unfold remaining_rows, getitem.
  destruct (get_loc col (columns d)) as [j|]; [| exact I].
  rewrite bind_lift_Ok. unfold lt_scalar. cbn [values].
  destruct (mapM _ (column_at j d)) as [mask|e] eqn:Em; [| exact I].
  rewrite bind_lift_Ok. unfold alloc. exists (loc d mask). split.
  - now apply list_lookup_middle.
  - apply mapM_Ok_inv in Em. now apply select_length.
Qed.

Lemma setitem_rows (d d1 : DataFrame) (col : string) (s : Series) :
  setitem d col s = Ok d1 -> length (rows d1) = length (rows d).
Proof.
  unfold setitem.
  destruct (Nat.eqb_spec (length (values s)) (length (rows d))) as [E|_];
    [| discriminate]. cbn [negb].
  destruct (get_loc col (columns d)); intros [= <-]; simpl;
    rewrite length_zip_with; lia.
Qed.

Lemma setitems_rows (cols : list (string * Series)) (d d1 : DataFrame) :
  setitems d cols = Ok d1 -> length (rows d1) = length (rows d).
Proof.
  revert d. induction cols as [|[c s] cols IH]; intros d; cbn [setitems].
  - now intros [= <-].
  - destruct (setitem d c s) as [d'|e] eqn:Es; [| discriminate].
    cbn [mbind result_bind]. intros Hr.
    rewrite (IH d' Hr). now apply setitem_rows with c s.
Qed.

Lemma load_holds (df : ref) (n : nat) :
  triple (holds df n) (load df)
    (fun d h => length (rows d) = n /\ h !! df = Some d) (fun _ => True).
Proof. intros h (d & Hd & Hn). unfold load. now rewrite Hd. Qed.

Lemma store_holds (df : ref) (n : nat) (d0 d1 : DataFrame) :
  length (rows d1) = n ->
  triple (fun h => h !! df = Some d0) (store df d1)
    (fun _ => holds df n) (fun _ => True).
Proof.
  intros Hn h Hd. unfold store. exists d1. split; [| exact Hn].
  apply list_lookup_insert_eq. now apply lookup_lt_Some with d0.
Qed.

Lemma category_to_int_rows (df : ref) (cols : list string) (n : nat) :
  triple (holds df n) (category_to_int df cols)
    (fun r h => r = df /\ holds df n h) (fun _ => True).
Proof.
  unfold category_to_int.
  eapply triple_bind.
  { apply triple_for_each. intros col _.
    eapply triple_bind; [apply load_holds | intros d].
    apply triple_pure. intros Hn.
    apply triple_lift_bind; [intros s Hs | auto].
    apply triple_lift_bind; [intros d' Hd' | auto].
    apply (store_holds df n d d').
    rewrite (setitem_rows _ _ _ _ Hd'). exact Hn. }
  intros [].
  eapply triple_bind; [apply load_holds | intros d].
  apply triple_pure. intros Hn.
  apply triple_lift_bind; [intros selected Hsel | auto].
  apply triple_lift_bind; [intros encoded Henc | auto].
  apply triple_lift_bind; [intros d' Hd' | auto].
  eapply triple_bind.
  { apply (store_holds df n d d').
    rewrite (setitems_rows _ _ _ Hd'). exact Hn. }
  intros []. apply triple_ret. auto.
Qed.

(** [df['heap'] = pd.to_numeric(df['heap'].str.replace(...), ...)]. *)
Lemma heap_to_numeric_rows (parse_number : string -> option Q)
    (df : ref) (n : nat) :
  triple (holds df n)
    (d ← load df;
     heap_col ← lift (getitem d "heap");
     replaced ← lift (str_replace_lower heap_col);
     d' ← lift (setitem d "heap" (to_numeric_coerce parse_number replaced));
     store df d')
    (fun _ => holds df n) (fun _ => True).
Proof.
  eapply triple_bind; [apply load_holds | intros d].
  apply triple_pure. intros Hn.
  apply triple_lift_bind; [intros s Hs | auto].
  apply triple_lift_bind; [intros s' Hs' | auto].
  apply triple_lift_bind; [intros d' Hd' | auto].
  apply (store_holds df n d d').
  rewrite (setitem_rows _ _ _ _ Hd'). exact Hn.
Qed.

Lemma iloc_col_length (d : DataFrame) (j : nat) (s : Series) :
  iloc_col d j = Ok s -> length (values s) = length (rows d).
Proof.
  unfold iloc_col. destruct (j <? length (columns d))%nat; [| discriminate].
  intros [= <-]. simpl. unfold column_at. apply length_map.
Qed.

Lemma iloc_cols_flatten_length (d d1 : DataFrame) (js : list nat) :
  iloc_cols d js = Ok d1 ->
  length (DataFrame_flatten d1) = (length js * length (rows d))%nat.
Proof.
  unfold iloc_cols. destruct (forallb _ js); [| discriminate].
  intros [= <-]. unfold DataFrame_flatten. simpl.
  induction (rows d) as [|r rs IH]; simpl; [lia |].
  rewrite length_app, IH, length_map. lia.
Qed.

End row_count_facts.

Section labels_facts.
Local Open Scope string_scope.

Variable fs : string -> option pd.DataFrame.
Variable parse_number : string -> option Q.
Context {S : Type} `{Scaler S}.

Lemma triple_on_frames {A} (P : heap -> Prop) (m : M heap A)
    (Q : A -> heap -> Prop) (E : heap -> Prop) :
  triple P m Q E ->
  triple (fun w : world S => P (frames w)) (on_frames m)
    (fun a w => Q a (frames w)) (fun w => E (frames w)).
Proof.
  intros Hm w HP. specialize (Hm (frames w) HP). unfold on_frames.
  now destruct (m (frames w)) as [[a|e] h'].
Qed.

Lemma pd_read_csv_table (path : string) (d : pd.DataFrame) :
  fs path = Some d ->
  triple (fun _ => True) (pd_read_csv fs path)
    (fun r h => h !! r = Some d) (fun _ => True).
Proof.
  intros Hfs h _. unfold pd_read_csv. rewrite Hfs. unfold alloc.
  now apply list_lookup_middle.
Qed.

(** The steps of [read_csv] after the table has been prepared. *)
Ltac to_the_end :=
  repeat first
    [ apply triple_lift_bind; [intros ? ? | auto]
    | eapply triple_bind; [apply triple_any | intros ?] ].

Ltac on_table spec :=
  eapply triple_bind;
  [ eapply triple_conseq;
    [ apply triple_on_frames, spec
    | intros ? Hpre; exact Hpre
    | intros ? ? Hpost; exact Hpost
    | auto ]
  | intros ? ].

Lemma read_csv_Ballerina_labels (loaded : pd.DataFrame) :
  fs "Datasets/Ballerina_Dataset.csv" = Some loaded ->
  triple (fun _ => True)
    (read_csv fs parse_number "Datasets/Ballerina_Dataset.csv")
    (fun r _ => labels_are (remaining_rows loaded "Error %") r)
    (fun _ => True).
Proof.
  intros Hfs. unfold read_csv. cbv zeta.
  on_table (pd_read_csv_table _ _ Hfs).
  cbn [String.eqb Ascii.eqb Bool.eqb].
  on_table (error_filter_rows a "Error %" loaded).
  on_table (category_to_int_rows a0 ["Name"]
              (remaining_rows loaded "Error %")).
  apply triple_pure. intros ->.
  on_table (load_holds a0 (remaining_rows loaded "Error %")).
  apply triple_pure. intros Hn.
  apply triple_lift_bind; [intros X HX | auto].
  apply triple_lift_bind; [intros y Hy | auto].
  to_the_end.
  apply triple_ret. intros _ _ X' y' seed [= _ <- _].
  unfold pd.Series_flatten. now rewrite (iloc_col_length _ _ _ Hy).
Qed.

Lemma read_csv_Springboot_labels (loaded : pd.DataFrame) :
  fs "Datasets/Springboot_Dataset.csv" = Some loaded ->
  triple (fun _ => True)
    (read_csv fs parse_number "Datasets/Springboot_Dataset.csv")
    (fun r _ => labels_are (remaining_rows loaded "error_rate") r)
    (fun _ => True).
Proof.
  intros Hfs. unfold read_csv. cbv zeta.
  on_table (pd_read_csv_table _ _ Hfs).
  cbn [String.eqb Ascii.eqb Bool.eqb].
  on_table (error_filter_rows a "error_rate" loaded).
  on_table (category_to_int_rows a0 ["use case"]
              (remaining_rows loaded "error_rate")).
  apply triple_pure. intros ->.
  on_table (category_to_int_rows a0 ["collector"]
              (remaining_rows loaded "error_rate")).
  apply triple_pure. intros ->.
  on_table (heap_to_numeric_rows parse_number a0
              (remaining_rows loaded "error_rate")).
  on_table (load_holds a0 (remaining_rows loaded "error_rate")).
  apply triple_pure. intros Hn.
  apply triple_lift_bind; [intros X HX | auto].
  apply triple_lift_bind; [intros y Hy | auto].
  to_the_end.
  apply triple_ret. intros _ _ X' y' seed [= _ <- _].
  unfold pd.Series_flatten. now rewrite (iloc_col_length _ _ _ Hy).
Qed.

Lemma read_csv_APIM_labels (loaded : pd.DataFrame) :
  fs "Datasets/APIM_Dataset.csv" = Some loaded ->
  triple (fun _ => True)
    (read_csv fs parse_number "Datasets/APIM_Dataset.csv")
    (fun r _ => labels_are (4 * remaining_rows loaded "Error %") r)
    (fun _ => True).
Proof.
  intros Hfs. unfold read_csv. cbv zeta.
  on_table (pd_read_csv_table _ _ Hfs).
  cbn [String.eqb Ascii.eqb Bool.eqb].
  on_table (error_filter_rows a "Error %" loaded).
  on_table (category_to_int_rows a0 ["Name"]
              (remaining_rows loaded "Error %")).
  apply triple_pure. intros ->.
  on_table (load_holds a0 (remaining_rows loaded "Error %")).
  apply triple_pure. intros Hn.
  apply triple_lift_bind; [intros X HX | auto].
  apply triple_lift_bind; [intros y Hy | auto].
  to_the_end.
  apply triple_ret. intros _ _ X' y' seed [= _ <- _].
  now rewrite (iloc_cols_flatten_length _ _ _ Hy), Hn.
Qed.

(** X18. The labels that [read_csv] returns, path by path.  On the Ballerina
    and Springboot paths there is one label per row that passes the
    error filter; on the APIM path, where the label positions are the
    four input columns, there are four. *)
Theorem read_csv_labels_length (path : string) (loaded : pd.DataFrame)
    (w : world S) (X : array) (y : list pd.cell) (seed : Z) :
  fs path = Some loaded ->
  (read_csv fs parse_number path w).1 = Ok (Some (X, y, seed)) ->
  (path = "Datasets/Ballerina_Dataset.csv" /\
   length y = remaining_rows loaded "Error %") \/
  (path = "Datasets/Springboot_Dataset.csv" /\
   length y = remaining_rows loaded "error_rate") \/
  (path = "Datasets/APIM_Dataset.csv" /\
   length y = (4 * remaining_rows loaded "Error %")%nat).
Proof.
  intros Hfs Hr.
  assert (Hseed : seed_is path (Some (X, y, seed))).
  { pose proof (read_csv_seed_triple fs parse_number path w I) as Ht.
    destruct (read_csv fs parse_number path w) as [[r|e] w'];
      [| discriminate].
    simpl in Hr. injection Hr as ->. exact Ht. }
  destruct (Hseed X y seed eq_refl) as [[-> _] | [[-> _] | [-> _]]].
  - right. right. split; [reflexivity |].
    pose proof (read_csv_APIM_labels loaded Hfs w I) as Ht.
    destruct (read_csv fs parse_number _ w) as [[r|e] w'];
      [| discriminate].
    simpl in Hr. injection Hr as ->. exact (Ht X y seed eq_refl).
  - left. split; [reflexivity |].
    pose proof (read_csv_Ballerina_labels loaded Hfs w I) as Ht.
    destruct (read_csv fs parse_number _ w) as [[r|e] w'];
      [| discriminate].
    simpl in Hr. injection Hr as ->. exact (Ht X y seed eq_refl).
  - right. left. split; [reflexivity |].
    pose proof (read_csv_Springboot_labels loaded Hfs w I) as Ht.
    destruct (read_csv fs parse_number _ w) as [[r|e] w'];
      [| discriminate].
    simpl in Hr. injection Hr as ->. exact (Ht X y seed eq_refl).
Qed.

End labels_facts.

Section APIM_with_MinMaxScaler.
Local Open Scope string_scope.

Variable fs : string -> option pd.DataFrame.
Variable parse_number : string -> option Q.

Lemma MinMaxScaler_transform_1d (s : MinMaxScaler) (v : list pd.cell) :
  is_ok (MinMaxScaler_transform s (Arr1 v)) = false.
Proof.
  unfold MinMaxScaler_transform.
  now destruct (data_min_ s), (data_max_ s).
Qed.

(** X19. With the scaler of the script, the APIM branch never returns a
    dataset: whatever the file holds and whether the scaler is fitted
    or not, the call raises, the features being one column taken as a
    Series, which [MinMaxScaler] refuses. *)
Lemma read_csv_APIM_MinMaxScaler_raises (w : world MinMaxScaler) :
  is_ok (read_csv fs parse_number "Datasets/APIM_Dataset.csv" w).1 = false.
Proof.
  assert (Ht : triple (fun _ => True)
                 (read_csv fs parse_number "Datasets/APIM_Dataset.csv")
                 (fun _ (_ : world MinMaxScaler) => False) (fun _ => True)).
  { unfold read_csv. cbv zeta.
    eapply triple_bind; [apply triple_any | intros ?].
    cbn [String.eqb Ascii.eqb Bool.eqb].
    do 7 (eapply triple_bind; [apply triple_any | intros ?]).
    eapply triple_bind with (Q1 := fun _ _ => False);
      [| intros ? ? []].
    intros st _. unfold scaler_transform, Series_array. simpl.
    pose proof (MinMaxScaler_transform_1d (scaler st) (pd.values a3)) as E.
    now destruct (MinMaxScaler_transform _ _). }
  specialize (Ht w I).
  now destruct (read_csv fs parse_number _ w) as [[r|e] w'].
Qed.

End APIM_with_MinMaxScaler.

(** ** The loader on the example files *)

Section read_csv_examples.
Local Open Scope string_scope.
Import examples.

(** C1, on the APIM path.  The branch has the two index variables
    exchanged: the latency column (23) is read as the features and the
    four input columns (0 to 3) as the labels.  With the identity
    transformer the call returns, and the labels are four values per
    remaining row, eight values for the two rows that pass the filter;
    with the [MinMaxScaler] of the script the call raises, because the
    features are a 1-D array. *)
Lemma read_csv_APIM_labels_example :
  (read_csv files parse_unsigned "Datasets/APIM_Dataset.csv"
     start_identity).1
  = Ok (Some (Arr1 [pd.Num 12; pd.Num 95],
              [pd.Num 0; pd.Num 50; pd.Num 1024; pd.Num 0;
               pd.Num 0; pd.Num 500; pd.Num 10240; pd.Num 0],
              42%Z)) /\
  remaining_rows apim_table "Error %" = 2%nat /\
  (read_csv files parse_unsigned "Datasets/APIM_Dataset.csv" start).1
  = Raise ValueError.
Proof. repeat split; vm_compute; reflexivity. Qed.

(** C2, as stated, fails: the APIM and the Springboot datasets are two
    different recognized paths, and [read_csv] returns the seed 42 for
    both. *)
Lemma seeds_not_distinct :
  ~ (forall p1 p2 X1 y1 s1 X2 y2 s2,
       recognized p1 -> recognized p2 -> p1 <> p2 ->
       (read_csv files parse_unsigned p1 start_identity).1
         = Ok (Some (X1, y1, s1)) ->
       (read_csv files parse_unsigned p2 start_identity).1
         = Ok (Some (X2, y2, s2)) ->
       s1 <> s2).
Proof.
  intros Hclaim.
  assert (H1 : exists X y,
             (read_csv files parse_unsigned "Datasets/APIM_Dataset.csv"
                start_identity).1 = Ok (Some (X, y, 42%Z)))
    by (vm_compute; eauto).
  assert (H2 : exists X y,
             (read_csv files parse_unsigned "Datasets/Springboot_Dataset.csv"
                start_identity).1 = Ok (Some (X, y, 42%Z)))
    by (vm_compute; eauto).
  destruct H1 as (X1 & y1 & H1), H2 as (X2 & y2 & H2).
  apply (Hclaim _ _ _ _ _ _ _ _
           (or_introl eq_refl) (or_intror (or_intror eq_refl))
           ltac:(discriminate) H1 H2).
  reflexivity.
Qed.

(** The table that [read_csv] encodes is the one that the filter has
    made: after the call the store holds the table as it was read, and
    the filtered table with the codes of its names. *)
Lemma read_csv_encodes_the_filtered_table :
  let h := frames (read_csv files parse_unsigned
                     "Datasets/Ballerina_Dataset.csv" start).2 in
  h !! 0%nat = Some ballerina_table /\
  exists d, h !! 1%nat = Some d /\
    pd.getitem d "Name"
    = Ok {| pd.s_dtype := pd.numeric; pd.values := [pd.Num 1; pd.Num 0] |}.
Proof.
  split; [vm_compute; reflexivity |].
  eexists. split; vm_compute; reflexivity.
Qed.

Lemma read_csv_seed_witness :
  exists X y seed,
    (read_csv files parse_unsigned "Datasets/Ballerina_Dataset.csv" start).1
      = Ok (Some (X, y, seed)) /\
    seed = 65%Z.
Proof.
  assert (Hrun : exists X y seed,
             (read_csv files parse_unsigned "Datasets/Ballerina_Dataset.csv"
                start).1 = Ok (Some (X, y, seed)))
    by (vm_compute; eauto).
  destruct Hrun as (X & y & seed & Hrun).
  exists X, y, seed. split; [exact Hrun |].
  destruct (read_csv_seed files parse_unsigned _ _ _ _ _ Hrun)
    as [[E _] | [[_ E] | [E _]]]; [discriminate E | exact E | discriminate E].
Defined.

Lemma read_csv_keeps_fitted_scaler_witness :
  recognized "Datasets/Ballerina_Dataset.csv" /\
  has_data_max_ fitted_scaler = true /\
  scaler (read_csv files parse_unsigned "Datasets/Ballerina_Dataset.csv"
            {| frames := []; scaler := fitted_scaler |}).2
  = fitted_scaler.
Proof.
  assert (Hp : recognized "Datasets/Ballerina_Dataset.csv")
    by (right; left; reflexivity).
  assert (Hf : has_data_max_ fitted_scaler = true) by reflexivity.
  split; [exact Hp |]. split; [exact Hf |].
  exact (proj1 (read_csv_keeps_fitted_scaler files parse_unsigned
                  "Datasets/Ballerina_Dataset.csv"
                  {| frames := []; scaler := fitted_scaler |} Hp Hf)).
Defined.



End read_csv_examples.

(** ** The regression model *)

Section model_facts.
Local Open Scope string_scope.

Variable find_MAP : pm.Model -> result pm.point.
Variable rng : Type.
Variable sample_ppc :
  pm.Model -> list pm.point -> string -> nat -> M rng (list (list float64)).

Lemma hasattr_Some {A} (field : BayesianRBFRegression -> option A)
    (self : BayesianRBFRegression) (a : A) :
  field self = Some a -> hasattr field self = (Ok true, self).
Proof. intros E. unfold hasattr. now rewrite E. Qed.

Lemma getattr_Some {A} (name : string)
    (field : BayesianRBFRegression -> option A)
    (self : BayesianRBFRegression) (a : A) :
  field self = Some a -> getattr name field self = (Ok a, self).
Proof. intros E. unfold getattr. now rewrite E. Qed.

Lemma getattr_None {A} (name : string)
    (field : BayesianRBFRegression -> option A)
    (self : BayesianRBFRegression) :
  field self = None ->
  getattr name field self
  = (Raise (AttributeError
              ("'BayesianRBFRegression' object has no attribute '"
                 +:+ name +:+ "'")), self).
Proof. intros E. unfold getattr. now rewrite E. Qed.

Lemma add_variable_Ok (name : string) (v : pm.variable)
    (self : BayesianRBFRegression) (m m' : pm.Model) :
  model self = Some m -> pm.add name v m = Ok m' ->
  add_variable name v self
  = (Ok name, {| model := Some m'; gp := gp self;
                 map_trace := map_trace self |}).
Proof.
  intros Hm Hadd. unfold add_variable.
  rewrite (bind_Ok _ _ _ _ _ (getattr_Some "model" _ _ _ Hm)).
  rewrite Hadd, bind_lift_Ok. reflexivity.
Qed.

Lemma add_variable_Raise (name : string) (v : pm.variable)
    (self : BayesianRBFRegression) (m : pm.Model) (e : exn) :
  model self = Some m -> pm.add name v m = Raise e ->
  add_variable name v self = (Raise e, self).
Proof.
  intros Hm Hadd. unfold add_variable.
  rewrite (bind_Ok _ _ _ _ _ (getattr_Some "model" _ _ _ Hm)).
  rewrite Hadd, bind_lift_Raise. reflexivity.
Qed.

Lemma getattr_trained {A} (name : string)
    (field : BayesianRBFRegression -> option A) :
  triple trained (getattr name field) (fun _ => trained) trained.
Proof. intros self Hs. unfold getattr. now destruct (field self). Qed.

Lemma lift_trained {A} (r : result A) :
  triple trained (lift r) (fun _ => trained) trained.
Proof. apply triple_lift. intros self Hs. now destruct r. Qed.

Lemma set_model_trained (P : BayesianRBFRegression -> Prop) (m : pm.Model) :
  triple P (set_model m) (fun _ => trained) trained.
Proof. intros self _. simpl. unfold trained. simpl. eauto. Qed.

Lemma set_gp_trained (g : pm.Marginal) :
  triple trained (set_gp g) (fun _ => trained) trained.
Proof. intros self Hs. exact Hs. Qed.

Lemma set_map_trace_trained (t : list pm.point) :
  triple trained (set_map_trace t) (fun _ => trained) trained.
Proof. intros self Hs. exact Hs. Qed.

Lemma add_variable_trained (name : string) (v : pm.variable) :
  triple trained (add_variable name v) (fun _ => trained) trained.
Proof.
  unfold add_variable.
  eapply triple_bind; [apply getattr_trained | intros ?].
  eapply triple_bind; [apply lift_trained | intros ?].
  eapply triple_bind; [apply set_model_trained | intros ?].
  now apply triple_ret.
Qed.

Lemma fit_trained (X : array) (y : list pd.cell) :
  triple (fun _ => True) (fit find_MAP X y) (fun _ => trained) trained.
Proof.
  unfold fit.
  eapply triple_bind; [apply set_model_trained | intros ?].
  repeat (eapply triple_bind;
          [first [ apply add_variable_trained | apply lift_trained
                 | apply set_gp_trained | apply getattr_trained ]
          | intros ?]); cbv zeta;
  repeat (eapply triple_bind;
          [first [ apply add_variable_trained | apply lift_trained
                 | apply set_gp_trained | apply getattr_trained ]
          | intros ?]).
  apply set_map_trace_trained.
Qed.

(** What [fit] leaves in an instance that has just been made. *)
Lemma fit_new (X : array) (y : list pd.cell) (d : nat) (p : pm.point) :
  shape_1 X = Ok d ->
  find_MAP (fitted_model X y d) = Ok p ->
  fit find_MAP X y BayesianRBFRegression_new
  = (Ok (), {| model := Some (fitted_model X y d);
               gp := Some (fitted_gp d);
               map_trace := Some [p] |}).
Proof.
  intros Hd Hp. unfold fit.
  erewrite bind_Ok by reflexivity.
  erewrite bind_Ok by (eapply add_variable_Ok; reflexivity).
  erewrite bind_Ok by (eapply add_variable_Ok; reflexivity).
  rewrite Hd, bind_lift_Ok. cbv zeta.
  erewrite bind_Ok by reflexivity.
  erewrite bind_Ok by (eapply add_variable_Ok; reflexivity).
  erewrite bind_Ok by (eapply getattr_Some; reflexivity).
  erewrite bind_Ok by (eapply add_variable_Ok; reflexivity).
  erewrite bind_Ok by (eapply getattr_Some; reflexivity).
  cbn [app pm.named_vars pm.Model_new].
  fold (fitted_gp d). fold (fitted_model X y d).
  rewrite Hp, bind_lift_Ok. reflexivity.
Qed.

(** C3. On an instance that has just been made, [predict] raises the
    error "train the model first", for every input, and leaves the
    instance as it is.  After a call of [fit], on any instance and
    whether the call returns or raises, the attribute [model] is set:
    the test [hasattr(self, 'model')] that guards the error gives
    true, so [predict] does not take that branch; if [predict] still
    ends with an error of that text, the sampler has raised it. *)
Theorem predict_requires_fit (X : array) (with_error : bool) (g : rng) :
  predict rng sample_ppc X with_error (BayesianRBFRegression_new, g)
  = (Raise (AttributeError "train the model first"),
     (BayesianRBFRegression_new, g)) /\
  forall (X0 : array) (y0 : list pd.cell) (self : BayesianRBFRegression),
    let self' := (fit find_MAP X0 y0 self).2 in
    hasattr model self' = (Ok true, self') /\
    ((predict rng sample_ppc X with_error (self', g)).1
       = Raise (AttributeError "train the model first") ->
     exists m trace g0,
       (sample_ppc m trace "f_pred" 2000 g0).1
       = Raise (AttributeError "train the model first")).
Proof.
  split; [reflexivity |].
  intros X0 y0 self self'.
  pose proof (fit_trained X0 y0 self I) as Ht. subst self'.
  destruct (fit find_MAP X0 y0 self) as [r self'].
  assert (Hs : trained self') by now destruct r. clear Ht. simpl.
  destruct Hs as [m Hm]. split; [now apply hasattr_Some with m |].
  unfold predict.
  rewrite (bind_Ok _ _ _ _ _ (on_fst_run _ _ _ g _ (hasattr_Some _ _ _ Hm))).
  cbn [negb].
  rewrite (bind_Ok _ _ _ _ _
             (on_fst_run _ _ _ g _ (getattr_Some "model" _ _ _ Hm))).
  destruct (gp self') as [gpv|] eqn:Hg.
  2:{ rewrite (bind_Raise _ _ _ _ _
                 (on_fst_run _ _ _ g _ (getattr_None "gp" _ _ Hg))).
      discriminate. }
  rewrite (bind_Ok _ _ _ _ _
             (on_fst_run _ _ _ g _ (getattr_Some "gp" _ _ _ Hg))).
  destruct (pm.add "f_pred" (pm.Conditional gpv X) m) as [m'|e] eqn:Hadd.
  2:{ rewrite (bind_Raise _ _ _ _ _
                 (on_fst_run _ _ _ g _
                    (add_variable_Raise _ _ _ _ _ Hm Hadd))).
      unfold pm.add in Hadd.
      destruct (existsb _ _); [injection Hadd as <- |]; discriminate. }
  rewrite (bind_Ok _ _ _ _ _
             (on_fst_run _ _ _ g _ (add_variable_Ok _ _ _ _ _ Hm Hadd))).
  set (self1 := {| model := Some m'; gp := gp self';
                   map_trace := map_trace self' |}).
  destruct (map_trace self') as [trace|] eqn:Ht.
  2:{ rewrite (bind_Raise _ _ _ _ _
                 (on_fst_run _ _ _ g _
                    (getattr_None "map_trace" map_trace self1 eq_refl))).
      discriminate. }
  rewrite (bind_Ok _ _ _ _ _
             (on_fst_run _ _ _ g _
                (getattr_Some "map_trace" map_trace self1 trace eq_refl))).
  rewrite (bind_Ok _ _ _ _ _
             (on_fst_run _ _ _ g _
                (getattr_Some "model" model self1 m' eq_refl))).
  destruct (sample_ppc m' trace "f_pred" 2000 g) as [[samples|e] g1] eqn:Es.
  - rewrite (bind_Ok _ _ _ _ _ (on_snd_run _ self1 _ _ _ Es)).
    destruct with_error; discriminate.
  - rewrite (bind_Raise _ _ _ _ _ (on_snd_run _ self1 _ _ _ Es)).
    intros E. exists m', trace, g. rewrite Es. simpl in E |- *.
    injection E as ->. reflexivity.
Qed.

End model_facts.

Section predict_facts.
Local Open Scope string_scope.

Variable rng : Type.
Variable sample_ppc :
  pm.Model -> list pm.point -> string -> nat -> M rng (list (list float64)).

(** The sampler returns as many draws as it is asked for. *)
Hypothesis sample_ppc_draws :
  forall m trace v n g samples g',
    sample_ppc m trace v n g = (Ok samples, g') -> length samples = n.



End predict_facts.

(** ** The model on examples *)

Section model_examples.
Local Open Scope string_scope.
Import examples.



Lemma predict_requires_fit_witness :
  let self' := (fit empty_MAP ten_features ten_labels
                  BayesianRBFRegression_new).2 in
  (predict unit raising_sampler ten_features false (self', ())).1
    = Raise (AttributeError "train the model first") /\
  hasattr model self' = (Ok true, self') /\
  exists m trace g0,
    (raising_sampler m trace "f_pred" 2000 g0).1
    = Raise (AttributeError "train the model first").
Proof.
  intros self'.
  destruct (predict_requires_fit empty_MAP unit raising_sampler
              ten_features false ()) as [_ Hfit].
  destruct (Hfit ten_features ten_labels BayesianRBFRegression_new)
    as [Hguard Hsampler].
  assert (Hrun : (predict unit raising_sampler ten_features false
                    (self', ())).1
                 = Raise (AttributeError "train the model first")).
  { subst self'.
    rewrite (fit_new empty_MAP ten_features ten_labels 1 [] eq_refl eq_refl).
    reflexivity. }
  split; [exact Hrun |]. split; [exact Hguard |]. exact (Hsampler Hrun).
Defined.

End model_examples.


(* ================================================================== *)
(** * Further properties *)

(** ** More on the metrics *)

Section more_metrics_facts.
Local Open Scope R_scope.











Lemma abs_sub_sym (x y : float64) :
  np.abs (np.sub x y) = np.abs (np.sub y x).
Proof.
  destruct x as [a| | |], y as [b| | |]; simpl; try reflexivity.
  f_equal. replace (b + - a) with (- (a + - b)) by lra. now rewrite Rabs_Ropp.
Qed.

Lemma square_sub_sym (x y : float64) :
  np.mul (np.sub x y) (np.sub x y) = np.mul (np.sub y x) (np.sub y x).
Proof.
  destruct x as [a| | |], y as [b| | |]; simpl; try reflexivity.
  f_equal. lra.
Qed.

Lemma zip_with_swap {A B} (f g : A -> A -> B) (a b : list A) :
  (forall x y, f x y = g y x) -> zip_with f a b = zip_with g b a.
Proof.
  intros Hfg. revert b. induction a as [|x a IH]; intros [|y b]; simpl;
    try reflexivity.
  now rewrite Hfg, IH.
Qed.

Lemma check_reg_targets_sym (a b : list float64) :
  check_reg_targets a b = check_reg_targets b a.
Proof.
  unfold check_reg_targets. rewrite (Nat.eqb_sym (length b)).
  destruct (Nat.eqb_spec (length a) (length b)) as [E|_]; [| reflexivity].
  cbn [negb]. rewrite E, (andb_comm (forallb _ a)). reflexivity.
Qed.

(** X2. The absolute and the squared error do not depend on which
    sequence is given first: the call [mean_absolute_error(pred_bayes,
    _y[test_index])] of the main block, which gives the prediction where
    scikit-learn expects the true values, computes the same number as
    the call in the expected order. *)
Theorem absolute_and_squared_error_symmetric (a b : list float64) :
  mean_absolute_error a b = mean_absolute_error b a /\
  root_mean_squared_error a b = root_mean_squared_error b a.
Proof.
  unfold root_mean_squared_error, mean_squared_error, mean_absolute_error.
  rewrite (check_reg_targets_sym a b).
  destruct (check_reg_targets b a) as [[]|e]; [| split; reflexivity].
  cbn [mbind result_bind mret result_ret fmap result_fmap].
  rewrite (zip_with_swap (fun t p => np.abs (np.sub p t))
             (fun t p => np.abs (np.sub p t)) a b)
    by (intros x y; apply abs_sub_sym).
  rewrite (zip_with_swap (fun t p => np.mul (np.sub t p) (np.sub t p))
             (fun t p => np.mul (np.sub t p) (np.sub t p)) a b)
    by (intros x y; apply square_sub_sym).
  split; reflexivity.
Qed.






End more_metrics_facts.

(** ** More on the regression model *)

Section more_model_facts.
Local Open Scope string_scope.

Variable find_MAP : pm.Model -> result pm.point.
Variable rng : Type.
Variable sample_ppc :
  pm.Model -> list pm.point -> string -> nat -> M rng (list (list float64)).

(** What [fit] does, on any instance: the three ways it can end. *)
Lemma fit_run (X : array) (y : list pd.cell) (self : BayesianRBFRegression) :
  fit find_MAP X y self
  = match shape_1 X with
    | Raise e =>
        (Raise e, {| model := Some two_priors; gp := gp self;
                     map_trace := map_trace self |})
    | Ok d =>
        match find_MAP (fitted_model X y d) with
        | Ok p =>
            (Ok (), {| model := Some (fitted_model X y d);
                       gp := Some (fitted_gp d);
                       map_trace := Some [p] |})
        | Raise e =>
            (Raise e, {| model := Some (fitted_model X y d);
                         gp := Some (fitted_gp d);
                         map_trace := map_trace self |})
        end
    end.
Proof.
  unfold fit.
  erewrite bind_Ok by reflexivity.
  erewrite bind_Ok by (eapply add_variable_Ok; reflexivity).
  erewrite bind_Ok by (eapply add_variable_Ok; reflexivity).
  destruct (shape_1 X) as [d|e]; [| now rewrite bind_lift_Raise].
  rewrite bind_lift_Ok. cbv zeta.
  erewrite bind_Ok by reflexivity.
  erewrite bind_Ok by (eapply add_variable_Ok; reflexivity).
  erewrite bind_Ok by (eapply getattr_Some; reflexivity).
  erewrite bind_Ok by (eapply add_variable_Ok; reflexivity).
  erewrite bind_Ok by (eapply getattr_Some; reflexivity).
  cbn [app pm.named_vars pm.Model_new].
  fold (fitted_gp d). fold (fitted_model X y d).
  destruct (find_MAP (fitted_model X y d)) as [p|e];
    [now rewrite bind_lift_Ok | now rewrite bind_lift_Raise].
Qed.


(** X4. A call of [fit] that returns leaves in the instance only what it
    has made from its own arguments: whatever the instance held before
    (an earlier model, with the conditional that [predict] added to it,
    an earlier trace), it ends as a new instance does after the same
    call, and the conditional for new points can be added to its model
    again. *)
Theorem fit_overwrites (X : array) (y : list pd.cell)
    (self self' : BayesianRBFRegression) :
  fit find_MAP X y self = (Ok (), self') ->
  fit find_MAP X y BayesianRBFRegression_new = (Ok (), self') /\
  exists m g,
    model self' = Some m /\ gp self' = Some g /\
    forall Xnew, is_ok (pm.add "f_pred" (pm.Conditional g Xnew) m) = true.
Proof.
  rewrite !fit_run.
  destruct (shape_1 X) as [d|e]; [| discriminate].
  destruct (find_MAP (fitted_model X y d)) as [p|e]; [| discriminate].
  intros [= <-]. split; [reflexivity |].
  exists (fitted_model X y d), (fitted_gp d). repeat split.
Qed.

(** X5. When [fit] is given a 1-D array, [X.shape[1]] raises IndexError
    after [self.model] has been set.  The instance then passes the test
    of [predict], which fails further on for the attribute [gp] that was
    never set: the error is not "train the model first". *)
Theorem fit_on_1d_then_predict (v : list pd.cell) (y : list pd.cell)
    (X : array) (with_error : bool) (g : rng) :
  let after := fit find_MAP (Arr1 v) y BayesianRBFRegression_new in
  after.1 = Raise IndexError /\
  predict rng sample_ppc X with_error (after.2, g)
  = (Raise (AttributeError
              "'BayesianRBFRegression' object has no attribute 'gp'"),
     (after.2, g)).
Proof.
  cbv zeta. rewrite fit_run. cbn [shape_1 fst snd]. split; [reflexivity |].
  unfold predict.
  erewrite bind_Ok
    by (apply on_fst_run; eapply hasattr_Some; reflexivity).
  cbn [negb].
  erewrite bind_Ok
    by (apply on_fst_run; eapply getattr_Some; reflexivity).
  erewrite bind_Raise
    by (apply on_fst_run; eapply getattr_None; reflexivity).
  reflexivity.
Qed.

(** X6. When the optimiser fails, [fit] raises its exception with the
    model and the process already stored.  On an instance that was new,
    [predict] then adds the conditional to the model and fails for the
    attribute [map_trace], without drawing anything. *)
Theorem fit_without_MAP_then_predict (X : array) (y : list pd.cell)
    (d : nat) (e : exn) (Xnew : array) (with_error : bool) (g : rng) :
  shape_1 X = Ok d ->
  find_MAP (fitted_model X y d) = Raise e ->
  let after := fit find_MAP X y BayesianRBFRegression_new in
  after.1 = Raise e /\
  predict rng sample_ppc Xnew with_error (after.2, g)
  = (Raise (AttributeError
              "'BayesianRBFRegression' object has no attribute 'map_trace'"),
     ({| model := Some (predicting_model X y d Xnew);
         gp := Some (fitted_gp d); map_trace := None |}, g)).
Proof.
  intros Hd Hp. cbv zeta. rewrite fit_run, Hd, Hp. cbn [fst snd].
  split; [reflexivity |].
  unfold predict.
  erewrite bind_Ok
    by (apply on_fst_run; eapply hasattr_Some; reflexivity).
  cbn [negb].
  erewrite bind_Ok
    by (apply on_fst_run; eapply getattr_Some; reflexivity).
  erewrite bind_Ok
    by (apply on_fst_run; eapply getattr_Some; reflexivity).
  erewrite bind_Ok
    by (apply on_fst_run; eapply add_variable_Ok; reflexivity).
  erewrite bind_Raise
    by (apply on_fst_run; eapply getattr_None; reflexivity).
  reflexivity.
Qed.

(** X7. A failure of [fit] goes through [eval_bayesian_rbf] as it is:
    the same exception is raised, nothing is predicted and no random
    number is drawn. *)
Theorem eval_bayesian_rbf_fit_failure (X : array) (y : list pd.cell)
    (eval_X : array) (eval_y : list pd.cell) (e : exn)
    (self' : BayesianRBFRegression) (g : rng) :
  fit find_MAP X y BayesianRBFRegression_new = (Raise e, self') ->
  eval_bayesian_rbf find_MAP rng sample_ppc X y eval_X eval_y g
  = (Raise e, g).
Proof.
  intros Hfit. unfold eval_bayesian_rbf, with_local.
  rewrite (bind_Raise _ _ _ _ _ (on_fst_run _ _ _ g _ Hfit)).
  reflexivity.
Qed.


End more_model_facts.

Section more_model_examples.
Local Open Scope string_scope.
Import examples.

Lemma fit_overwrites_witness :
  fit empty_MAP ten_features ten_labels used_instance
  = (Ok (), {| model := Some (fitted_model ten_features ten_labels 1);
               gp := Some (fitted_gp 1); map_trace := Some [[]] |}) /\
  fit empty_MAP ten_features ten_labels BayesianRBFRegression_new
  = (Ok (), {| model := Some (fitted_model ten_features ten_labels 1);
               gp := Some (fitted_gp 1); map_trace := Some [[]] |}).
Proof.
  assert (Hrun : fit empty_MAP ten_features ten_labels used_instance
                 = (Ok (), {| model := Some (fitted_model ten_features
                                               ten_labels 1);
                              gp := Some (fitted_gp 1);
                              map_trace := Some [[]] |}))
    by (rewrite fit_run; reflexivity).
  split; [exact Hrun |].
  exact (proj1 (fit_overwrites empty_MAP _ _ _ _ Hrun)).
Defined.

Lemma fit_without_MAP_then_predict_witness :
  (fit failing_MAP ten_features ten_labels BayesianRBFRegression_new).1
  = Raise ValueError.
Proof.
  exact (proj1 (fit_without_MAP_then_predict failing_MAP unit
                  constant_sampler ten_features ten_labels 1 ValueError
                  ten_features false () eq_refl eq_refl)).
Defined.

Lemma eval_bayesian_rbf_fit_failure_witness :
  eval_bayesian_rbf failing_MAP unit constant_sampler
    ten_features ten_labels ten_features ten_labels ()
  = (Raise ValueError, ()).
Proof.
  apply (eval_bayesian_rbf_fit_failure failing_MAP unit constant_sampler
           ten_features ten_labels ten_features ten_labels ValueError
           {| model := Some (fitted_model ten_features ten_labels 1);
              gp := Some (fitted_gp 1); map_trace := None |} ()).
  rewrite fit_run. reflexivity.
Defined.


End more_model_examples.

(** ** More on the loader *)

Section more_read_csv_facts.
Local Open Scope string_scope.

Variable fs : string -> option pd.DataFrame.
Variable parse_number : string -> option Q.
Context {S : Type} `{Scaler S}.

Lemma triple_exn_any {St A} (P : St -> Prop) (m : M St A) Q E :
  triple P m Q E -> triple P m Q (fun _ => True).
Proof.
  intros Hm st HP. specialize (Hm st HP).
  now destruct (m st) as [[a|e] st1].
Qed.

Lemma read_csv_other_path (path : string) (w : world S) :
  ~ recognized path ->
  read_csv fs parse_number path w
  = match fs path with
    | Some d => (Ok None, {| frames := frames w ++ [d]; scaler := scaler w |})
    | None => (Raise (FileNotFoundError path), w)
    end.
Proof.
  intros Hpath. unfold read_csv, recognized in *.
  destruct (String.eqb_spec path "Datasets/APIM_Dataset.csv") as [E|_];
    [tauto |].
  destruct (String.eqb_spec path "Datasets/Ballerina_Dataset.csv") as [E|_];
    [tauto |].
  destruct (String.eqb_spec path "Datasets/Springboot_Dataset.csv") as [E|_];
    [tauto |].
  destruct w as [h s0]. unfold mbind, M_bind, on_frames, pd_read_csv. simpl.
  now destruct (fs path).
Qed.

(** X9. A path that is not one of the three datasets is not an error for
    [read_csv]: the file is read first, so a missing file raises
    FileNotFoundError, and a file that exists is read into the store and
    then dropped, the result being [None].  The scaler is not touched. *)
Theorem read_csv_unrecognized_path (path : string) (w : world S) :
  ~ recognized path ->
  read_csv fs parse_number path w
  = match fs path with
    | Some d => (Ok None, {| frames := frames w ++ [d]; scaler := scaler w |})
    | None => (Raise (FileNotFoundError path), w)
    end.
Proof. apply read_csv_other_path. Qed.

Lemma read_csv_missing_file (path : string) (w : world S) :
  fs path = None ->
  read_csv fs parse_number path w = (Raise (FileNotFoundError path), w).
Proof.
  intros Hfs. unfold read_csv.
  apply bind_Raise. destruct w as [h s0]. unfold on_frames, pd_read_csv.
  simpl. now rewrite Hfs.
Qed.

Lemma fit_done (s0 : S) (fitted : bool) (X0 : array) :
  has_data_max_ s0 = false ->
  triple (fun w => fitted = has_data_max_ s0 /\ scaler_is s0 w)
    (if negb fitted then scaler_fit X0 else mret ())
    (fun _ w => exists s', sk_fit s0 X0 = Ok s' /\ scaler_is s' w)
    (fun _ => True).
Proof.
  intros Hfit w [-> Hw]. rewrite Hfit. cbn [negb]. unfold scaler_fit.
  rewrite Hw. destruct (sk_fit s0 X0) as [s'|e]; [| exact I].
  exists s'. now split.
Qed.

Lemma transform_after_fit (s0 : S) (X0 : array) :
  triple (fun w => exists s', sk_fit s0 X0 = Ok s' /\ scaler_is s' w)
    (scaler_transform X0)
    (fun X w => exists s', sk_fit s0 X0 = Ok s' /\ scaler w = s' /\
                           sk_transform s' X0 = Ok X)
    (fun _ => True).
Proof.
  intros w (s' & Hs & Hw). unfold scaler_transform. rewrite Hw.
  destruct (sk_transform s' X0) as [X|e] eqn:Et; [| exact I].
  exists s'. now repeat split.
Qed.

Lemma read_csv_unfitted (s0 : S) (path : string) :
  has_data_max_ s0 = false ->
  triple (scaler_is s0) (read_csv fs parse_number path)
    (fit_then_transformed s0) (fun _ => True).
Proof.
  intros Hfit. unfold read_csv; cbv zeta.
  eapply triple_bind; [(eapply triple_exn_any; apply on_frames_scaler) | intros ?].
  destruct (String.eqb_spec path "Datasets/APIM_Dataset.csv") as [-> | _];
    [| destruct (String.eqb_spec path "Datasets/Ballerina_Dataset.csv")
         as [-> | _];
       [| destruct (String.eqb_spec path "Datasets/Springboot_Dataset.csv")
            as [-> | _]]];
    try (apply triple_ret; intros; exact I);
    repeat (eapply triple_bind;
            [first [ (eapply triple_exn_any; apply on_frames_scaler)
                   | (eapply triple_exn_any; apply lift_scaler)
                   | (eapply triple_exn_any; apply hasattr_scaler)
                   | apply fit_done; exact Hfit ]
            | intros ?]);
    (eapply triple_bind; [apply transform_after_fit | intros ?]);
    apply triple_ret; intros w (s' & Hs & Hw & Ht);
    simpl; eauto.
Qed.

(** X10. Called with a scaler that has not been fit (no [data_max_]), a
    call of [read_csv] that returns a dataset has fit the scaler on the
    selected feature columns, and the features it returns are the
    transform, by the scaler so fitted, of these same columns. *)
Theorem read_csv_fits_unfitted_scaler (path : string) (w w' : world S)
    (X : array) (y : list pd.cell) (seed : Z) :
  has_data_max_ (scaler w) = false ->
  read_csv fs parse_number path w = (Ok (Some (X, y, seed)), w') ->
  exists features s',
    sk_fit (scaler w) features = Ok s' /\ scaler w' = s' /\
    sk_transform s' features = Ok X.
Proof.
  intros Hfit Hr.
  pose proof (read_csv_unfitted (scaler w) path Hfit w eq_refl) as Ht.
  rewrite Hr in Ht. exact Ht.
Qed.

(** The steps of [read_csv] keep the tables that were in the store. *)
Lemma alloc_keeps (h0 : heap) (d : pd.DataFrame) :
  triple (keeps_tables h0) (alloc d)
    (fun r h => (length h0 <= r)%nat /\ keeps_tables h0 h)
    (keeps_tables h0).
Proof.
  intros h Hk. unfold alloc.
  assert (Hlen : (length h0 <= length h)%nat).
  { destruct (Nat.le_gt_cases (length h0) (length h)) as [Hle|Hgt];
      [exact Hle |].
    destruct h0 as [|d0 h0]; [simpl; lia |].
    assert (Hl : (length h < length (d0 :: h0))%nat) by exact Hgt.
    specialize (Hk (length h) Hl).
    rewrite lookup_ge_None_2 in Hk by lia.
    symmetry in Hk. apply lookup_ge_None_1 in Hk. lia. }
  split; [exact Hlen |].
  intros r Hr. rewrite lookup_app_l by lia. now apply Hk.
Qed.

Lemma store_keeps (h0 : heap) (df : nat) (d : pd.DataFrame) :
  (length h0 <= df)%nat ->
  triple (keeps_tables h0) (store df d)
    (fun _ => keeps_tables h0) (keeps_tables h0).
Proof.
  intros Hdf h Hk r Hr. unfold store.
  rewrite list_lookup_insert_ne by lia. now apply Hk.
Qed.

Lemma load_keeps (h0 : heap) (df : nat) :
  triple (keeps_tables h0) (load df)
    (fun _ => keeps_tables h0) (keeps_tables h0).
Proof. intros h Hk. unfold load. now destruct (h !! df). Qed.

Lemma lift_keeps {A} (h0 : heap) (r : result A) :
  triple (keeps_tables h0) (lift r)
    (fun _ => keeps_tables h0) (keeps_tables h0).
Proof. apply triple_lift. intros h Hk. now destruct r. Qed.

Ltac keeps_steps Hdf :=
  repeat first
    [ eapply triple_bind;
      [first [ apply load_keeps | apply lift_keeps
             | apply store_keeps; exact Hdf ]
      | intros ?]
    | apply store_keeps; exact Hdf
    | apply triple_ret; auto ].

Lemma category_to_int_keeps (h0 : heap) (df : nat) (cols : list string) :
  (length h0 <= df)%nat ->
  triple (keeps_tables h0) (category_to_int df cols)
    (fun r h => (length h0 <= r)%nat /\ keeps_tables h0 h)
    (keeps_tables h0).
Proof.
  intros Hdf. unfold category_to_int.
  eapply triple_bind.
  { apply triple_for_each. intros col _. keeps_steps Hdf. }
  intros []. keeps_steps Hdf.
Qed.

Lemma error_filter_keeps (h0 : heap) (df : nat) (col : string) :
  triple (keeps_tables h0) (error_filter df col)
    (fun r h => (length h0 <= r)%nat /\ keeps_tables h0 h)
    (keeps_tables h0).
Proof.
  unfold error_filter.
  repeat (eapply triple_bind;
          [first [apply load_keeps | apply lift_keeps] | intros ?]).
  apply alloc_keeps.
Qed.

Lemma pd_read_csv_keeps (h0 : heap) (path : string) :
  triple (keeps_tables h0) (pd_read_csv fs path)
    (fun r h => (length h0 <= r)%nat /\ keeps_tables h0 h)
    (keeps_tables h0).
Proof.
  unfold pd_read_csv. destruct (fs path); [apply alloc_keeps |].
  now apply triple_raise.
Qed.

Lemma heap_to_numeric_keeps (h0 : heap) (df : nat) :
  (length h0 <= df)%nat ->
  triple (keeps_tables h0)
    (d ← load df;
     heap_col ← lift (pd.getitem d "heap");
     replaced ← lift (pd.str_replace_lower heap_col);
     d' ← lift (pd.setitem d "heap"
                  (pd.to_numeric_coerce parse_number replaced));
     store df d')
    (fun _ => keeps_tables h0) (keeps_tables h0).
Proof. intros Hdf. keeps_steps Hdf. Qed.

(** A step of [read_csv] that does not touch the store. *)
Lemma world_step_keeps {A} (h0 : heap) (m : M (world S) A) :
  (forall w, frames (m w).2 = frames w) ->
  triple (fun w => keeps_tables h0 (frames w)) m
    (fun _ w => keeps_tables h0 (frames w))
    (fun w => keeps_tables h0 (frames w)).
Proof.
  intros Hm w Hk. specialize (Hm w).
  destruct (m w) as [[a|e] w1]; simpl in Hm; now rewrite Hm.
Qed.

Lemma lift_frames {A} (r : result A) (w : world S) :
  frames (lift r w).2 = frames w.
Proof. reflexivity. Qed.

Lemma hasattr_frames (w : world S) :
  frames (hasattr_data_max_ w).2 = frames w.
Proof. reflexivity. Qed.

Lemma transform_frames (X : array) (w : world S) :
  frames (scaler_transform X w).2 = frames w.
Proof. reflexivity. Qed.

Lemma fit_frames (fitted : bool) (X : array) (w : world S) :
  frames ((if negb fitted then scaler_fit X else mret ()) w).2 = frames w.
Proof.
  destruct fitted; [reflexivity |]. cbn [negb]. unfold scaler_fit.
  now destruct (sk_fit (scaler w) X).
Qed.

Ltac on_store spec :=
  eapply triple_bind;
  [ eapply triple_conseq;
    [ apply triple_on_frames, spec
    | intros ? Hpre; exact Hpre
    | intros ? ? Hpost; exact Hpost
    | intros ? Hexn; exact Hexn ]
  | intros ? ].

Ltac world_steps :=
  repeat (eapply triple_bind;
          [ apply world_step_keeps;
            first [ apply lift_frames | apply hasattr_frames
                  | apply transform_frames | apply fit_frames ]
          | intros ? ]);
  apply triple_ret; auto.

Lemma read_csv_keeps (h0 : heap) (path : string) :
  triple (fun w : world S => keeps_tables h0 (frames w))
    (read_csv fs parse_number path)
    (fun _ w => keeps_tables h0 (frames w))
    (fun w => keeps_tables h0 (frames w)).
Proof.
  unfold read_csv; cbv zeta.
  on_store (pd_read_csv_keeps h0 path).
  apply triple_pure. intros Hdf.
  destruct (String.eqb path "Datasets/APIM_Dataset.csv");
    [| destruct (String.eqb path "Datasets/Ballerina_Dataset.csv");
       [| destruct (String.eqb path "Datasets/Springboot_Dataset.csv")]].
  - on_store (error_filter_keeps h0 a "Error %").
    apply triple_pure. intros Hdf1.
    on_store (category_to_int_keeps h0 a0 ["Name"] Hdf1).
    apply triple_pure. intros Hdf2.
    on_store (load_keeps h0 a1).
    world_steps.
  - on_store (error_filter_keeps h0 a "Error %").
    apply triple_pure. intros Hdf1.
    on_store (category_to_int_keeps h0 a0 ["Name"] Hdf1).
    apply triple_pure. intros Hdf2.
    on_store (load_keeps h0 a1).
    world_steps.
  - on_store (error_filter_keeps h0 a "error_rate").
    apply triple_pure. intros Hdf1.
    on_store (category_to_int_keeps h0 a0 ["use case"] Hdf1).
    apply triple_pure. intros Hdf2.
    on_store (category_to_int_keeps h0 a1 ["collector"] Hdf2).
    apply triple_pure. intros Hdf3.
    on_store (heap_to_numeric_keeps h0 a2 Hdf3).
    on_store (load_keeps h0 a2).
    world_steps.
  - apply triple_ret; auto.
Qed.

(** X11. [read_csv] works on tables of its own: whatever the path and
    whether the call returns or raises, every table that was in the
    store before the call is there unchanged after it.  The encoding of
    [category_to_int] and the rewriting of the column [heap] reach only
    the table that the call has made. *)
Theorem read_csv_keeps_other_tables (path : string) (w : world S)
    (r : nat) (d : pd.DataFrame) :
  frames w !! r = Some d ->
  frames (read_csv fs parse_number path w).2 !! r = Some d.
Proof.
  intros Hr.
  assert (Hk : keeps_tables (frames w) (frames w)) by (intros ? ?; reflexivity).
  pose proof (read_csv_keeps (frames w) path w Hk) as Ht.
  assert (Hafter : keeps_tables (frames w)
                     (frames (read_csv fs parse_number path w).2)).
  { now destruct (read_csv fs parse_number path w) as [[a|e] w']. }
  rewrite Hafter; [exact Hr |]. now apply lookup_lt_Some with d.
Qed.

End more_read_csv_facts.

(** ** More on the main block *)

Section more_driver_facts.
Local Open Scope string_scope.

Variable fs : string -> option pd.DataFrame.
Variable parse_number : string -> option Q.
Variable find_MAP : pm.Model -> result pm.point.
Variable rng : Type.
Variable sample_ppc :
  pm.Model -> list pm.point -> string -> nat -> M rng (list (list float64)).
Variable permutation : Z -> nat -> list nat.

(** X12. The main block without its dataset.  When the file is missing,
    whatever the path, the run ends with FileNotFoundError.  When the
    file exists and the path is not one of the three datasets,
    [read_csv] returns [None] and unpacking it ends the run with
    TypeError.  In both cases nothing has been drawn. *)
Theorem main_without_dataset (file_path : string) (g : rng) :
  (fs file_path = None ->
   main fs parse_number find_MAP rng sample_ppc permutation file_path g
   = (Raise (FileNotFoundError file_path), g)) /\
  (forall d, fs file_path = Some d -> ~ recognized file_path ->
   main fs parse_number find_MAP rng sample_ppc permutation file_path g
   = (Raise TypeError, g)).
Proof.
  split.
  - intros Hfs. unfold main, with_local.
    rewrite (bind_Raise _ _ _ _ _
               (on_fst_run _ _ _ g _
                  (read_csv_missing_file fs parse_number file_path _ Hfs))).
    reflexivity.
  - intros d Hfs Hpath. unfold main, with_local.
    pose proof (read_csv_other_path fs parse_number file_path
                  {| frames := []; scaler := MinMaxScaler_new (0, 1)%Q |}
                  Hpath) as Hrun.
    rewrite Hfs in Hrun.
    rewrite (bind_Ok _ _ _ _ _ (on_fst_run _ _ _ g _ Hrun)).
    reflexivity.
Qed.

End more_driver_facts.

Section more_read_csv_examples.
Local Open Scope string_scope.
Import examples.

Lemma read_csv_unrecognized_path_witness :
  read_csv files parse_unsigned "Datasets/Other.csv" start
  = (Raise (FileNotFoundError "Datasets/Other.csv"), start).
Proof.
  apply (read_csv_unrecognized_path files parse_unsigned
           "Datasets/Other.csv" start).
  intros [E | [E | E]]; discriminate E.
Defined.

Lemma read_csv_fits_unfitted_scaler_witness :
  exists X y seed w' features s',
    read_csv files parse_unsigned "Datasets/Ballerina_Dataset.csv" start
      = (Ok (Some (X, y, seed)), w') /\
    sk_fit (scaler start) features = Ok s' /\ scaler w' = s' /\
    sk_transform s' features = Ok X.
Proof.
  assert (Hrun : exists X y seed w',
             read_csv files parse_unsigned "Datasets/Ballerina_Dataset.csv"
               start = (Ok (Some (X, y, seed)), w'))
    by (vm_compute; eauto 6).
  destruct Hrun as (X & y & seed & w' & Hrun).
  assert (Hnew : has_data_max_ (scaler start) = false) by reflexivity.
  destruct (read_csv_fits_unfitted_scaler files parse_unsigned
              "Datasets/Ballerina_Dataset.csv" start w' X y seed
              Hnew Hrun)
    as (features & s' & Hfit).
  exists X, y, seed, w', features, s'. split; [exact Hrun | exact Hfit].
Defined.

Lemma read_csv_keeps_other_tables_witness :
  frames (read_csv files parse_unsigned "Datasets/Springboot_Dataset.csv"
            {| frames := [ballerina_table];
               scaler := MinMaxScaler_new (0, 1)%Q |}).2 !! 0%nat
  = Some ballerina_table.
Proof.
  apply read_csv_keeps_other_tables. reflexivity.
Defined.

Lemma main_without_dataset_witness :
  main files parse_unsigned empty_MAP unit constant_sampler reverse_order
    "Datasets/Other.csv" ()
  = (Raise (FileNotFoundError "Datasets/Other.csv"), ()).
Proof.
  apply (proj1 (main_without_dataset files parse_unsigned empty_MAP unit
                  constant_sampler reverse_order "Datasets/Other.csv" ())).
  reflexivity.
Defined.

Lemma read_csv_labels_length_witness :
  exists X y seed,
    (read_csv files parse_unsigned "Datasets/Springboot_Dataset.csv" start).1
      = Ok (Some (X, y, seed)) /\
    length y = remaining_rows springboot_table "error_rate".
Proof.
  assert (Hrun : exists X y seed,
             (read_csv files parse_unsigned "Datasets/Springboot_Dataset.csv"
                start).1 = Ok (Some (X, y, seed)))
    by (vm_compute; eauto).
  destruct Hrun as (X & y & seed & Hrun).
  exists X, y, seed. split; [exact Hrun |].
  destruct (read_csv_labels_length files parse_unsigned
              "Datasets/Springboot_Dataset.csv" springboot_table start
              X y seed eq_refl Hrun)
    as [[E _] | [[_ E] | [E _]]];
    [discriminate E | exact E | discriminate E].
Defined.

End more_read_csv_examples.

(** ** More on the encoding of categories *)

Section more_category_facts.
Import pd.

Lemma cell_eqb_refl (x : cell) : x <> Null -> cell_eqb x x = true.
Proof.
  destruct x as [q|t|]; simpl; intros Hx;
    [apply Qeq_bool_refl | apply String.eqb_refl | contradiction].
Qed.

Lemma cell_eqb_sym (x y : cell) : cell_eqb x y = cell_eqb y x.
Proof.
  destruct x as [a|a|], y as [b|b|]; simpl; try reflexivity.
  - apply Qeq_bool_comm.
  - apply String.eqb_sym.
Qed.

Lemma cell_eqb_trans (x y z : cell) :
  cell_eqb x y = true -> cell_eqb y z = true -> cell_eqb x z = true.
Proof.
  destruct x as [a|a|], y as [b|b|], z as [c|c|]; simpl;
    try discriminate; try reflexivity.
  - apply Qeq_bool_trans.
  - intros E1 E2. apply String.eqb_eq in E1, E2. subst.
    apply String.eqb_refl.
Qed.

Lemma cell_eqb_compat (x y c : cell) :
  cell_eqb x y = true -> cell_eqb x c = cell_eqb y c.
Proof.
  intros E.
  destruct (cell_eqb x c) eqn:Ex, (cell_eqb y c) eqn:Ey; try reflexivity.
  - rewrite cell_eqb_sym in E.
    rewrite (cell_eqb_trans y x c E Ex) in Ey. discriminate.
  - rewrite (cell_eqb_trans x y c E Ey) in Ex. discriminate.
Qed.

Lemma position_compat (x y : cell) (cats : list cell) :
  cell_eqb x y = true -> position x cats = position y cats.
Proof.
  intros E. induction cats as [|c cats IH]; simpl; [reflexivity |].
  now rewrite (cell_eqb_compat x y c E), IH.
Qed.

Lemma position_lookup (x : cell) (cats : list cell) (i : nat) :
  position x cats = Some i ->
  exists c, cats !! i = Some c /\ cell_eqb x c = true.
Proof.
  revert i. induction cats as [|c cats IH]; intros i; simpl; [discriminate |].
  destruct (cell_eqb x c) eqn:E.
  - intros [= <-]. now exists c.
  - destruct (position x cats) as [j|]; [| discriminate].
    intros [= <-]. now apply IH.
Qed.

Lemma position_found (x : cell) (cats : list cell) :
  existsb (cell_eqb x) cats = true -> exists i, position x cats = Some i.
Proof.
  induction cats as [|c cats IH]; simpl; [discriminate |].
  destruct (cell_eqb x c); [eauto |]. simpl. intros E.
  destruct (IH E) as [i ->]. eauto.
Qed.

Lemma unique_covers (x : cell) (l acc : list cell) :
  x <> Null ->
  existsb (cell_eqb x) acc = true \/ In x l ->
  existsb (cell_eqb x)
    (foldl (fun acc x => if is_null x || existsb (cell_eqb x) acc then acc
                         else acc ++ [x]) acc l) = true.
Proof.
  intros Hx. revert acc. induction l as [|a l IH]; intros acc Hin;
    cbn [foldl].
  - destruct Hin as [E | []]. exact E.
  - apply IH. destruct Hin as [E | [-> | Hin]].
    + left. destruct (is_null a || existsb (cell_eqb a) acc); [exact E |].
      rewrite existsb_app, E. reflexivity.
    + left. destruct x as [q|t|]; [| | contradiction]; cbn [is_null orb].
      * destruct (existsb (cell_eqb (Num q)) acc) eqn:E; [exact E |].
        rewrite existsb_app. simpl. now rewrite Qeq_bool_refl, orb_true_r.
      * destruct (existsb (cell_eqb (Str t)) acc) eqn:E; [exact E |].
        rewrite existsb_app. simpl. now rewrite String.eqb_refl, orb_true_r.
    + now right.
Qed.

Lemma existsb_insert_sorted (f : cell -> bool) (x : cell) (l : list cell) :
  existsb f (insert_sorted x l) = f x || existsb f l.
Proof.
  induction l as [|y l IH]; simpl; [reflexivity |].
  destruct (cell_leb x y); simpl; [reflexivity |].
  rewrite IH. now destruct (f x), (f y).
Qed.

Lemma existsb_sort (f : cell -> bool) (l : list cell) :
  existsb f (sort l) = existsb f l.
Proof.
  unfold sort. induction l as [|x l IH]; simpl; [reflexivity |].
  now rewrite existsb_insert_sorted, IH.
Qed.

Lemma categories_cover (x : cell) (l : list cell) :
  x <> Null -> In x l -> existsb (cell_eqb x) (categories l) = true.
Proof.
  intros Hx Hin. unfold categories.
  assert (Hu : existsb (cell_eqb x) (unique l) = true)
    by (apply unique_covers; auto).
  destruct (forallb is_num (unique l) || forallb is_str (unique l));
    [now rewrite existsb_sort | exact Hu].
Qed.

Lemma code_of_value (x : cell) (l : list cell) :
  x <> Null -> In x l ->
  exists i, position x (categories l) = Some i /\
            code (categories l) x = Z.of_nat i.
Proof.
  intros Hx Hin.
  destruct (position_found x (categories l) (categories_cover x l Hx Hin))
    as [i Hi].
  exists i. split; [exact Hi |]. unfold code. now rewrite Hi.
Qed.

Lemma codes_lookup (l : list cell) (i : nat) (x : cell) :
  l !! i = Some x ->
  codes l !! i = Some (Num (inject_Z (code (categories l) x))).
Proof. intros Hi. unfold codes. now rewrite lookup_map, Hi. Qed.

(** X13. The codes that [cat.codes] gives to a column tell its values
    apart and nothing more: a missing value has the code -1, a value
    that is not missing has a code that is not negative, and two values
    that are not missing have the same code exactly when they are the
    same value (the same string, or the same number). *)
Theorem codes_faithful (l : list cell) (i j : nat) (x y : cell) :
  l !! i = Some x ->
  l !! j = Some y ->
  exists cx cy : Z,
    codes l !! i = Some (Num (inject_Z cx)) /\
    codes l !! j = Some (Num (inject_Z cy)) /\
    (x = Null -> cx = (-1)%Z) /\
    (x <> Null -> (0 <= cx)%Z) /\
    (x <> Null -> y <> Null -> (cx = cy <-> cell_eqb x y = true)).
Proof.
  intros Hi Hj.
  exists (code (categories l) x), (code (categories l) y).
  split; [now apply codes_lookup |]. split; [now apply codes_lookup |].
  assert (Hxin : In x l) by (apply list_elem_of_In; eapply list_elem_of_lookup_2; eauto).
  assert (Hyin : In y l) by (apply list_elem_of_In; eapply list_elem_of_lookup_2; eauto).
  split; [| split].
  - intros ->. apply code_Null.
  - intros Hx. destruct (code_of_value x l Hx Hxin) as (n & _ & ->). lia.
  - intros Hx Hy.
    destruct (code_of_value x l Hx Hxin) as (n & Hn & ->).
    destruct (code_of_value y l Hy Hyin) as (m & Hm & ->).
    split.
    + intros E. apply Nat2Z.inj in E. subst m.
      destruct (position_lookup _ _ _ Hn) as (c & Hc & Exc).
      destruct (position_lookup _ _ _ Hm) as (c' & Hc' & Eyc).
      rewrite Hc in Hc'. injection Hc' as <-.
      rewrite cell_eqb_sym in Eyc. exact (cell_eqb_trans x c y Exc Eyc).
    + intros E. rewrite (position_compat x y _ E) in Hn.
      rewrite Hn in Hm. injection Hm as ->. reflexivity.
Qed.

Lemma codes_faithful_witness :
  exists cx cy : Z,
    codes [Str "b"; Null; Str "a"; Str "b"] !! 0%nat
      = Some (Num (inject_Z cx)) /\
    codes [Str "b"; Null; Str "a"; Str "b"] !! 3%nat
      = Some (Num (inject_Z cy)) /\
    cx = cy.
Proof.
  destruct (codes_faithful [Str "b"; Null; Str "a"; Str "b"] 0 3
              (Str "b") (Str "b") eq_refl eq_refl)
    as (cx & cy & Hx & Hy & _ & _ & Heq).
  exists cx, cy. split; [exact Hx |]. split; [exact Hy |].
  apply Heq; [discriminate | discriminate | reflexivity].
Defined.

(** The loop of [category_to_int] up to a column that the table does not
    have. *)
Lemma astype_loop_missing (df : nat) (c : string) (rest : list string)
    (cols : list string) :
  forall (h : heap) (d : DataFrame),
    h !! df = Some d -> well_formed d ->
    (forall col, In col cols -> exists s, getitem d col = Ok s) ->
    get_loc c (columns d) = None ->
    exists d1,
      for_each (cols ++ c :: rest) (astype_body df) h
        = (Raise (KeyError c), <[df := d1]> h) /\
      astype_rel cols d d1.
Proof.
  induction cols as [|a cols IH]; intros h d Hdf Hwf Hcols Hc.
  - exists d. split; [| now repeat split].
    cbn [app for_each]. rewrite list_insert_id by exact Hdf.
    apply bind_Raise. unfold astype_body.
    rewrite (bind_Ok _ _ _ _ _ (load_lookup h df d Hdf)).
    unfold getitem. rewrite Hc. reflexivity.
  - destruct (Hcols a (or_introl eq_refl)) as [s Hs].
    destruct (setitem_existing d a s (astype_category s) Hwf Hs)
      as (d1 & Hset & Hwf1 & Hn1 & Hl1 & Hg1 & Ho1).
    { simpl. now apply getitem_length with a. }
    assert (Hstep : astype_body df a h = (Ok (), <[df := d1]> h)).
    { unfold astype_body.
      rewrite (bind_Ok _ _ _ _ _ (load_lookup h df d Hdf)).
      rewrite Hs, bind_lift_Ok, Hset, bind_lift_Ok. reflexivity. }
    pose proof (lookup_lt_Some _ _ _ Hdf) as Hlt.
    destruct (IH (<[df := d1]> h) d1)
      as (d2 & Hloop & Hwf2 & Hn2 & Hl2 & Hin2 & Hout2).
    { now apply list_lookup_insert_eq. }
    { exact Hwf1. }
    { intros col Hcol. destruct (String.eqb_spec col a) as [-> | Hne].
      - eauto.
      - rewrite (Ho1 col Hne). apply Hcols. now right. }
    { now rewrite (get_loc_names c _ _ Hn1). }
    exists d2. split.
    + cbn [app for_each]. rewrite (bind_Ok _ _ _ _ _ Hstep).
      now rewrite Hloop, list_insert_insert_eq.
    + split; [exact Hwf2 |]. split; [congruence |]. split; [congruence |].
      split.
      * intros col s' Hcol Hs'.
        destruct (in_dec String.string_dec col cols) as [Hr | Hr].
        -- destruct (String.eqb_spec col a) as [-> | Hne].
           ++ rewrite Hs in Hs'. injection Hs' as <-.
              now rewrite (Hin2 a (astype_category s) Hr Hg1).
           ++ apply Hin2; [exact Hr |]. now rewrite (Ho1 col Hne).
        -- destruct Hcol as [<- | Hcol]; [| contradiction].
           rewrite (Hout2 a Hr). congruence.
      * intros col Hcol.
        rewrite Hout2 by (intros Hx; apply Hcol; now right). apply Ho1.
        intros ->. apply Hcol. now left.
Qed.

(** X14. When a column of the list is not in the table,
    [category_to_int] raises KeyError for the first such column, and
    the table is left half done: the columns before it in the list have
    become categorical, none has been encoded, and no value of the table
    has changed. *)
Theorem category_to_int_missing_column (h : heap) (df : nat) (d : DataFrame)
    (before after : list string) (c : string) :
  h !! df = Some d ->
  well_formed d ->
  (forall col, In col before -> exists s, getitem d col = Ok s) ->
  get_loc c (columns d) = None ->
  exists d1,
    category_to_int df (before ++ c :: after) h
      = (Raise (KeyError c), <[df := d1]> h) /\
    (forall col s, In col before -> getitem d col = Ok s ->
       getitem d1 col = Ok {| s_dtype := category; values := values s |}) /\
    (forall col, ~ In col before -> getitem d1 col = getitem d col).
Proof.
  intros Hdf Hwf Hcols Hc.
  destruct (astype_loop_missing df c after before h d Hdf Hwf Hcols Hc)
    as (d1 & Hloop & _ & _ & _ & Hin & Hout).
  exists d1. split; [| split; [exact Hin | exact Hout]].
  unfold category_to_int. now apply bind_Raise.
Qed.

End more_category_facts.

Section more_category_examples.
Local Open Scope string_scope.
Import examples.

Lemma category_to_int_missing_column_witness :
  exists d1,
    category_to_int 0 ["Name"; "Scenario"; "Label"] [ballerina_table]
      = (Raise (KeyError "Scenario"), [d1]) /\
    pd.getitem d1 "Label" = pd.getitem ballerina_table "Label".
Proof.
  destruct (category_to_int_missing_column [ballerina_table] 0
              ballerina_table ["Name"] ["Label"] "Scenario")
    as (d1 & Hrun & _ & Hout).
  - reflexivity.
  - repeat constructor.
  - intros col [<- | []]. eexists. reflexivity.
  - reflexivity.
  - exists d1. split; [exact Hrun |].
    apply Hout. intros [E | []]. discriminate E.
Defined.

End more_category_examples.

(** ** More on the cross-validation *)

Section more_folds_facts.

Lemma zip_map_pair {A B} (f : nat -> A) (g : nat -> B) (p : list nat) :
  zip (map f p) (map g p) = map (fun i => (f i, g i)) p.
Proof. induction p as [|i p IH]; simpl; [reflexivity | now rewrite IH]. Qed.

Lemma zip_nth_seq {A B} (a : A) (b : B) (l : list A) (k : list B) :
  length l = length k ->
  map (fun i => (nth i l a, nth i k b)) (seq 0 (length l)) = zip l k.
Proof.
  revert k. induction l as [|x l IH]; intros [|y k] Hlen;
    try discriminate; [reflexivity |].
  simpl. f_equal. rewrite <- seq_shift, map_map.
  apply IH. now injection Hlen.
Qed.

Lemma np_take_zip {A B} (p : list nat) (l l' : list A) (k k' : list B) :
  length l = length k ->
  Permutation p (seq 0 (length l)) ->
  np_take p l = Ok l' -> np_take p k = Ok k' ->
  Permutation (zip l' k') (zip l k).
Proof.
  intros Hlen Hp Hl Hk.
  assert (Hr : Forall (fun i => (i < length l)%nat) p).
  { apply List.Forall_forall. intros i Hi.
    apply (Permutation_in _ Hp), in_seq in Hi. lia. }
  destruct l as [|a l0], k as [|b k0]; try discriminate.
  - apply Permutation_nil_r in Hp. subst p.
    injection Hl as <-. injection Hk as <-. constructor.
  - set (l := a :: l0) in *. set (k := b :: k0) in *.
    rewrite (np_take_nth a p l Hr) in Hl. injection Hl as <-.
    rewrite Hlen in Hr.
    rewrite (np_take_nth b p k Hr) in Hk. injection Hk as <-.
    rewrite zip_map_pair, <- (zip_nth_seq a b l k Hlen).
    now apply Permutation_map.
Qed.

Lemma filter_all {A} (f : A -> bool) (l : list A) :
  (forall x, In x l -> f x = true) -> List.filter f l = l.
Proof.
  induction l as [|x l IH]; intros Hf; simpl; [reflexivity |].
  rewrite (Hf x (or_introl eq_refl)), IH; [reflexivity |].
  intros y Hy. apply Hf. now right.
Qed.

Lemma filter_none {A} (f : A -> bool) (l : list A) :
  (forall x, In x l -> f x = false) -> List.filter f l = [].
Proof.
  induction l as [|x l IH]; intros Hf; simpl; [reflexivity |].
  rewrite (Hf x (or_introl eq_refl)). apply IH.
  intros y Hy. apply Hf. now right.
Qed.

Lemma in_range_test (i s k : nat) :
  existsb (Nat.eqb i) (seq s k) = true <-> (s <= i < s + k)%nat.
Proof.
  rewrite existsb_exists. split.
  - intros (z & Hz & E). apply Nat.eqb_eq in E. subst z.
    apply in_seq in Hz. lia.
  - intros Hi. exists i. split; [apply in_seq; lia | apply Nat.eqb_refl].
Qed.

(** The train indices of a range of test indices. *)
Lemma train_of_range (n s k : nat) :
  (s + k <= n)%nat ->
  train_of n (seq s k) = seq 0 s ++ seq (s + k) (n - (s + k)).
Proof.
  intros Hle. unfold train_of.
  replace n with (s + (k + (n - (s + k))))%nat at 1 by lia.
  rewrite !seq_app, !List.filter_app. cbn [Nat.add].
  rewrite filter_all, filter_none, filter_all; [reflexivity | | |].
  - intros i Hi. apply in_seq in Hi. apply negb_true_iff.
    apply not_true_iff_false. rewrite in_range_test. lia.
  - intros i Hi. apply in_seq in Hi. apply negb_false_iff.
    apply in_range_test. lia.
  - intros i Hi. apply in_seq in Hi. apply negb_true_iff.
    apply not_true_iff_false. rewrite in_range_test. lia.
Qed.

Lemma test_ranges_in (c : nat) (sizes : list nat) (t : list nat) :
  In t (test_ranges c sizes) ->
  exists start size,
    t = seq start size /\ In size sizes /\
    (c <= start)%nat /\ (start + size <= c + sum_list sizes)%nat.
Proof.
  revert c. induction sizes as [|s sizes IH]; intros c; simpl; [intros [] |].
  intros [<- | Hin].
  - exists c, s. repeat split; auto; lia.
  - destruct (IH _ Hin) as (start & size & Ht & Hs & Hc & Hb).
    exists start, size. repeat split; auto; lia.
Qed.

Lemma fold_sizes_in (k n size : nat) :
  In size (fold_sizes k n) -> size = (n / k)%nat \/ size = (n / k + 1)%nat.
Proof.
  unfold fold_sizes. rewrite in_map_iff. intros (i & <- & _).
  destruct (i <? n mod k)%nat; lia.
Qed.

Lemma KFold_split_10 (n : nat) :
  KFold_split 10 n
  = if (n <? 10)%nat then Raise ValueError
    else Ok (map (fun test_index => (train_of n test_index, test_index))
               (test_ranges 0 (fold_sizes 10 n))).
Proof. reflexivity. Qed.

(** X15. The folds of [KFold(n_splits=10)] are balanced and lose
    nothing: the held-out part of every fold has a tenth of the rows,
    rounded down or up, and its train indices followed by its test
    indices are the positions 0 .. n-1 in another order, each once: no
    row is both trained on and tested on in a fold, and none is left
    out of it. *)
Theorem folds_balanced (n : nat) (folds : list (list nat * list nat))
    (train test : list nat) :
  KFold_split 10 n = Ok folds ->
  In (train, test) folds ->
  Permutation (train ++ test) (seq 0 n) /\
  (length test = (n / 10)%nat \/ length test = (n / 10 + 1)%nat) /\
  (length train + length test = n)%nat.
Proof.
  rewrite KFold_split_10.
  destruct (Nat.ltb_spec n 10) as [|Hn]; [discriminate |].
  set (tests := test_ranges 0 (fold_sizes 10 n)).
  intros E Hin.
  assert (Hfolds : folds = map (fun t => (train_of n t, t)) tests)
    by congruence.
  subst folds tests. clear E.
  apply in_map_iff in Hin as (t & [= <- <-] & Hin).
  destruct (test_ranges_in 0 _ _ Hin) as (start & size & -> & Hs & _ & Hb).
  rewrite sum_fold_sizes in Hb by lia. simpl in Hb.
  rewrite (train_of_range n start size Hb).
  split; [| split].
  - rewrite <- app_assoc.
    rewrite (Permutation_app_comm (seq (start + size) _) (seq start size)).
    rewrite <- !seq_app.
    replace (start + (size + (n - (start + size))))%nat with n by lia.
    reflexivity.
  - rewrite length_seq. now apply fold_sizes_in in Hs.
  - rewrite length_app, !length_seq. lia.
Qed.

Lemma folds_balanced_witness :
  exists folds train test,
    KFold_split 10 23 = Ok folds /\
    folds !! 2%nat = Some (train, test) /\
    Permutation (train ++ test) (seq 0 23) /\
    (length test = 2%nat \/ length test = 3%nat) /\
    (length train + length test = 23)%nat.
Proof.
  assert (Hrun : exists folds train test,
             KFold_split 10 23 = Ok folds /\
             folds !! 2%nat = Some (train, test))
    by (vm_compute; eauto).
  destruct Hrun as (folds & train & test & Hrun & Hfold).
  exists folds, train, test. split; [exact Hrun |]. split; [exact Hfold |].
  assert (Hin : In (train, test) folds)
    by (apply list_elem_of_In; eapply list_elem_of_lookup_2; exact Hfold).
  exact (folds_balanced 23 folds train test Hrun Hin).
Defined.

End more_folds_facts.

Section more_cross_validation_facts.

Variable permutation : Z -> nat -> list nat.
Hypothesis permutation_spec :
  forall seed n, Permutation (permutation seed n) (seq 0 n).


(** X16. The shuffle keeps every row of the features with its label:
    when [shuffle] returns, the features are of the same kind (1-D or
    2-D) as before, and the pairs of a row and its label are the pairs
    of before, in another order. *)
Theorem shuffle_keeps_pairs (X X' : array) (y y' : list pd.cell) (seed : Z) :
  shuffle permutation X y seed = Ok (X', y') ->
  same_pairs X X' y y' /\ array_len X' = length y' /\ length y' = length y.
Proof.
  unfold shuffle.
  destruct (Nat.eqb_spec (array_len X) (length y)) as [Hlen|_];
    [| discriminate]. cbn [negb].
  pose proof (permutation_spec seed (array_len X)) as Hp.
  destruct (array_take (permutation seed (array_len X)) X) as [X1|e] eqn:EX;
    [| discriminate]. cbn [mbind result_bind].
  destruct (np_take (permutation seed (array_len X)) y) as [y1|e] eqn:Ey;
    [| discriminate]. cbn [mbind result_bind mret result_ret].
  intros [= <- <-].
  assert (Hy : length y1 = length y).
  { rewrite Hlen in Hp.
    destruct (np_take_permutation _ y Hp) as (y2 & Hy2 & _ & Hl).
    rewrite <- Hlen in Hy2. congruence. }
  destruct X as [v | rows]; simpl in *.
  - destruct (np_take (permutation seed (length v)) v) as [v'|e] eqn:Ev;
      [| discriminate].
    injection EX as <-. simpl.
    split; [now apply (np_take_zip (permutation seed (length v))) |].
    destruct (np_take_permutation _ v Hp) as (v2 & Hv2 & _ & Hl).
    split; [congruence | exact Hy].
  - destruct (np_take (permutation seed (length rows)) rows) as [r'|e] eqn:Er;
      [| discriminate].
    injection EX as <-. simpl.
    split; [now apply (np_take_zip (permutation seed (length rows))) |].
    destruct (np_take_permutation _ rows Hp) as (r2 & Hr2 & _ & Hl).
    split; [congruence | exact Hy].
Qed.


End more_cross_validation_facts.

Section more_cross_validation_examples.
Import examples.

Lemma reverse_order_permutation :
  forall seed n, Permutation (reverse_order seed n) (seq 0 n).
Proof. intros seed n. symmetry. apply Permutation_rev. Qed.

Lemma shuffle_keeps_pairs_witness :
  exists X' y',
    shuffle reverse_order ten_features ten_labels 65 = Ok (X', y') /\
    same_pairs ten_features X' ten_labels y'.
Proof.
  assert (Hrun : exists X' y',
             shuffle reverse_order ten_features ten_labels 65 = Ok (X', y'))
    by (vm_compute; eauto).
  destruct Hrun as (X' & y' & Hrun).
  exists X', y'. split; [exact Hrun |].
  exact (proj1 (shuffle_keeps_pairs reverse_order reverse_order_permutation
                  _ _ _ _ _ Hrun)).
Defined.


End more_cross_validation_examples.
